(** * AWS-IAM-All-Actions: the statement classifiers and the scan driver

    A shallow embedding of [aws-iam-allactions.py].  The script reads the
    customer-managed IAM policies of an account, classifies every statement
    of every policy document with two predicates ([is_action_wildcard] and
    [is_many_actions]) and prints a report.

    Policy documents are decoded JSON, so the classifiers work on untyped
    Python values.  The embedding keeps that: values are a small universe
    [pyval], every operation that Python can refuse ([x in 5], [set([[]])],
    [5.get(..)], [d["k"]]) returns an exception, and the driver is written
    in a state-and-exception monad over the three result lists and the
    standard output. *)

From stdpp Require Import gmap strings list sorting.
From Stdlib Require Import ZArith.

Local Set Warnings "-register-all".

(** ** Python values *)

(** The values [json.loads] produces, without floats (no operation below
    reads more of a number than its truth value, its hash and its equality
    with other keys).  A [dict] is a finite map with string keys: the
    program never depends on the order of the keys of a dict, except when it
    pretty-prints a statement. *)
Inductive pyval :=
| PNone
| PBool (b : bool)
| PInt (z : Z)
| PStr (s : string)
| PList (l : list pyval)
| PDict (d : gmap string pyval).

(** The exceptions the program can meet.  [ClientError] is
    [botocore.exceptions.ClientError] with [e.response['Error']['Code']]
    and [e.response['Error']['Message']]. *)
Inductive exn :=
| TypeError
| KeyError (k : string)
| AttributeError
| ClientError (code message : string).

Inductive result (A : Type) :=
| Ok (a : A)
| Raise (e : exn).
Arguments Ok {A} a.
Arguments Raise {A} e.

Global Instance result_ret : MRet result := λ A a, Ok a.
Global Instance result_bind : MBind result := λ A B f r,
  match r with
  | Ok a => f a
  | Raise e => Raise e
  end.

(** [isinstance(v, str)], [isinstance(v, dict)], [isinstance(v, list)]. *)
Definition isinstance_str (v : pyval) : bool :=
  match v with PStr _ => true | _ => false end.
Definition isinstance_dict (v : pyval) : bool :=
  match v with PDict _ => true | _ => false end.
Definition isinstance_list (v : pyval) : bool :=
  match v with PList _ => true | _ => false end.

(** [o.get(k, default)]: only a dict has a [get]. *)
Definition py_get (o : pyval) (k : string) (default : pyval) : result pyval :=
  match o with
  | PDict d => Ok (from_option id default (d !! k))
  | _ => Raise AttributeError
  end.

(** [o[k]] with a string key [k]: a missing key of a dict is a [KeyError];
    lists and strings refuse a string index, the other values are not
    subscriptable. *)
Definition py_getitem (o : pyval) (k : string) : result pyval :=
  match o with
  | PDict d => from_option Ok (Raise (KeyError k)) (d !! k)
  | _ => Raise TypeError
  end.

(** [v == s] and [v != s] for a string literal [s]: a string equals only
    strings. *)
Definition py_eq_str (v : pyval) (s : string) : bool :=
  match v with PStr t => bool_decide (t = s) | _ => false end.
Definition py_ne_str (v : pyval) (s : string) : bool := negb (py_eq_str v s).

(** Truth value of [v], as [not v] and [if v] take it. *)
Definition truthy (v : pyval) : bool :=
  match v with
  | PNone => false
  | PBool b => b
  | PInt z => bool_decide (z ≠ 0%Z)
  | PStr s => bool_decide (s ≠ "")
  | PList l => bool_decide (l ≠ [])
  | PDict d => bool_decide (d ≠ ∅)
  end.

(** [sub in s] on two strings: [sub] occurs in [s] as a substring. *)
Fixpoint str_contains (sub s : string) : bool :=
  if String.prefix sub s then true
  else match s with
       | EmptyString => false
       | String _ t => str_contains sub t
       end.

(** [s in v] for a string [s]: substring of a string, element of a list, key
    of a dict; the other values are not containers. *)
Definition py_in_str (s : string) (v : pyval) : result bool :=
  match v with
  | PStr t => Ok (str_contains s t)
  | PList l => Ok (existsb (λ x, py_eq_str x s) l)
  | PDict d => Ok (bool_decide (is_Some (d !! s)))
  | _ => Raise TypeError
  end.

Fixpoint chars (s : string) : list string :=
  match s with
  | EmptyString => []
  | String a t => String a EmptyString :: chars t
  end.

(** The elements [for x in v] goes through: the elements of a list, the keys
    of a dict, the characters of a string (one element per byte here; the
    program never iterates over a string when its input has the shape the
    IAM grammar gives it). *)
Definition py_iter (v : pyval) : result (list pyval) :=
  match v with
  | PStr s => Ok (PStr <$> chars s)
  | PList l => Ok l
  | PDict d => Ok (PStr <$> elements (dom d))
  | _ => Raise TypeError
  end.

(** [any(f(x) for x in l)]: stops at the first true element, and an
    exception of [f] before that one escapes. *)
Fixpoint py_any (f : pyval → result bool) (l : list pyval) : result bool :=
  match l with
  | [] => Ok false
  | x :: l' => b ← f x; if b : bool then Ok true else py_any f l'
  end.

(** Hashable values up to Python's equality: [True == 1] and [False == 0]
    are one key each; lists and dicts are unhashable. *)
Inductive hkey :=
| HNone
| HInt (z : Z)
| HStr (s : string).

Global Instance hkey_eq_dec : EqDecision hkey.
Proof. solve_decision. Defined.

Definition hkey_to_sum (k : hkey) : unit + (Z + string) :=
  match k with
  | HNone => inl ()
  | HInt z => inr (inl z)
  | HStr s => inr (inr s)
  end.
Definition hkey_of_sum (x : unit + (Z + string)) : hkey :=
  match x with
  | inl _ => HNone
  | inr (inl z) => HInt z
  | inr (inr s) => HStr s
  end.

Global Instance hkey_countable : Countable hkey.
Proof. apply (inj_countable' hkey_to_sum hkey_of_sum). by intros []. Defined.

Definition py_hash (v : pyval) : result hkey :=
  match v with
  | PNone => Ok HNone
  | PBool b => Ok (HInt (if b then 1 else 0))
  | PInt z => Ok (HInt z)
  | PStr s => Ok (HStr s)
  | PList _ | PDict _ => Raise TypeError
  end.

Fixpoint hash_all (l : list pyval) : result (list hkey) :=
  match l with
  | [] => Ok []
  | x :: l' => k ← py_hash x; ks ← hash_all l'; Ok (k :: ks)
  end.

(** [set(v)]: [v] must be iterable and its elements hashable. *)
Definition py_set (v : pyval) : result (gset hkey) :=
  l ← py_iter v; ks ← hash_all l; Ok (list_to_set ks).

(** ** The classifiers *)

Definition ACTION_COUNT_THRESHOLD : nat := 20.

Definition is_action_wildcard (statement : pyval) : result bool :=
  effect ← py_get statement "Effect" PNone;
  if py_ne_str effect "Allow" then Ok false else
  actions ← py_get statement "Action" (PList []);
  let actions := if isinstance_str actions then PList [actions] else actions in
  found ← py_in_str "*" actions;
  if negb found then Ok false else
  resources ← py_get statement "Resource" (PStr "*");
  let resources := if isinstance_str resources then PList [resources] else resources in
  condition ← py_get statement "Condition" (PDict ∅);
  star ← py_in_str "*" resources;
  wild ← (if star : bool then Ok true
          else rs ← py_iter resources; py_any (py_in_str ":*") rs);
  if wild : bool then Ok (negb (truthy condition)) else Ok false.

(** [is_many_actions] reads the module constant [ACTION_COUNT_THRESHOLD];
    the threshold is a parameter here and [is_many_actions] is the instance
    at the constant. *)
Definition is_many_actions_with (threshold : nat) (statement : pyval) : result bool :=
  effect ← py_get statement "Effect" PNone;
  if py_ne_str effect "Allow" then Ok false else
  actions ← py_get statement "Action" (PList []);
  let actions := if isinstance_str actions then PList [actions] else actions in
  s ← py_set actions;
  let unique_actions := elements s in
  if bool_decide (HStr "*" ∈ unique_actions) then Ok false else
  Ok (bool_decide (threshold ≤ length unique_actions)).

Definition is_many_actions : pyval → result bool :=
  is_many_actions_with ACTION_COUNT_THRESHOLD.

(** ** The scan driver *)

(** One entry of [page.get("Policies", [])], with the two fields [main]
    reads. *)
Record policy_entry := {
  PolicyName : string;
  Arn : string;
}.

(** What [paginator.paginate(Scope="Local")] yields when [main] iterates
    over it: pages, until the listing is exhausted or a page request raises
    a [ClientError]. *)
Inductive page_stream :=
| NoMorePages
| Page (policies : list policy_entry) (next : page_stream)
| ListingFails (code message : string).

(** The IAM client: the page stream of [list_policies],
    [get_policy(PolicyArn=arn)["Policy"]["DefaultVersionId"]] and
    [get_policy_version(PolicyArn=arn, VersionId=v)["PolicyVersion"]["Document"]].
    A call returns its answer or raises. *)
Record iam_client := {
  list_policies : page_stream;
  get_policy : string → result string;
  get_policy_version : string → string → result pyval;
}.

(** The dicts appended to [findings_wildcard] and [findings_many_actions]. *)
Record wildcard_finding := {
  wf_PolicyName : string;
  wf_PolicyArn : string;
  wf_Statement : pyval;
}.

Record many_finding := {
  mf_PolicyName : string;
  mf_PolicyArn : string;
  mf_Statement : pyval;
  mf_ActionCount : nat;
}.

(** One constructor per [print] call of [main]; the arguments are the values
    the format string interpolates ([OStatement s] stands for the line with
    [json.dumps(s, indent=2)]). *)
Inductive out :=
| OScanning
| OListError (message : string)
| OWildcardHeader (n : nat)
| ONoWildcard
| OManyHeader (n threshold : nat)
| ONoMany
| OPolicy (name : string)
| OPolicyCount (name : string) (count : nat)
| OArn (arn : string)
| OStatement (statement : pyval)
| OIssuesHeader
| OIssue (issue : string)
| OComplete.

(** The local lists of [main] and what it has printed so far. *)
Record scan_state := {
  findings_wildcard : list wildcard_finding;
  findings_many_actions : list many_finding;
  permission_issues : list string;
  stdout : list out;
}.

Definition initial : scan_state :=
  {| findings_wildcard := []; findings_many_actions := [];
     permission_issues := []; stdout := [] |}.

(** Commands of [main]: they change the state and return or raise; what was
    appended before an exception stays appended. *)
Definition M (A : Type) : Type := scan_state → result A * scan_state.

Global Instance M_ret : MRet M := λ A a st, (Ok a, st).
Global Instance M_bind : MBind M := λ A B f m st,
  match m st with
  | (Ok a, st') => f a st'
  | (Raise e, st') => (Raise e, st')
  end.
Definition lift {A} (r : result A) : M A := λ st, (r, st).

(** [try: body / except ClientError as e: handler(e)]. *)
Definition try_except (body : M unit) (handler : string → string → M unit) : M unit :=
  λ st, match body st with
        | (Raise (ClientError code message), st') => handler code message st'
        | other => other
        end.

(** [for x in l: body(x)]. *)
Fixpoint for_each {A} (body : A → M unit) (l : list A) : M unit :=
  match l with
  | [] => mret ()
  | x :: l' => body x ;; for_each body l'
  end.

Definition append_wildcard (f : wildcard_finding) : M unit := λ st,
  (Ok (), {| findings_wildcard := findings_wildcard st ++ [f];
             findings_many_actions := findings_many_actions st;
             permission_issues := permission_issues st;
             stdout := stdout st |}).

Definition append_many (f : many_finding) : M unit := λ st,
  (Ok (), {| findings_wildcard := findings_wildcard st;
             findings_many_actions := findings_many_actions st ++ [f];
             permission_issues := permission_issues st;
             stdout := stdout st |}).

Definition append_issue (issue : string) : M unit := λ st,
  (Ok (), {| findings_wildcard := findings_wildcard st;
             findings_many_actions := findings_many_actions st;
             permission_issues := permission_issues st ++ [issue];
             stdout := stdout st |}).

Definition print (o : out) : M unit := λ st,
  (Ok (), {| findings_wildcard := findings_wildcard st;
             findings_many_actions := findings_many_actions st;
             permission_issues := permission_issues st;
             stdout := stdout st ++ [o] |}).

(** [len(set(stmt["Action"])) if isinstance(stmt["Action"], list) else 1] *)
Definition action_count (stmt : pyval) : result nat :=
  a ← py_getitem stmt "Action";
  if isinstance_list a then
    a' ← py_getitem stmt "Action"; s ← py_set a'; Ok (size s)
  else Ok 1.

(** The body of [for stmt in statements]. *)
Definition scan_statement (policy_name policy_arn : string) (stmt : pyval) : M unit :=
  w ← lift (is_action_wildcard stmt);
  if w : bool then
    append_wildcard {| wf_PolicyName := policy_name; wf_PolicyArn := policy_arn;
                       wf_Statement := stmt |}
  else
    m ← lift (is_many_actions stmt);
    if m : bool then
      n ← lift (action_count stmt);
      append_many {| mf_PolicyName := policy_name; mf_PolicyArn := policy_arn;
                     mf_Statement := stmt; mf_ActionCount := n |}
    else mret ().

Definition issue_line (operation policy_name code : string) : string :=
  "iam:" +:+ operation +:+ " on " +:+ policy_name +:+ " — " +:+ code.

(** The body of [for policy in page.get("Policies", [])]. *)
Definition scan_policy (iam : iam_client) (policy : policy_entry) : M unit :=
  let policy_name := PolicyName policy in
  let policy_arn := Arn policy in
  try_except
    (version_id ← lift (get_policy iam policy_arn);
     try_except
       (document ← lift (get_policy_version iam policy_arn version_id);
        statements ← lift (py_get document "Statement" (PList []));
        let statements :=
          if isinstance_dict statements then PList [statements] else statements in
        stmts ← lift (py_iter statements);
        for_each (scan_statement policy_name policy_arn) stmts)
       (λ code _, append_issue (issue_line "GetPolicyVersion" policy_name code)))
    (λ code _, append_issue (issue_line "GetPolicy" policy_name code)).

(** [for page in paginator.paginate(Scope="Local"): for policy in ...]. *)
Fixpoint scan_pages (iam : iam_client) (pages : page_stream) : M unit :=
  match pages with
  | NoMorePages => mret ()
  | Page policies next =>
      for_each (scan_policy iam) policies ;; scan_pages iam next
  | ListingFails code message => lift (Raise (ClientError code message))
  end.

(** [sorted(set(permission_issues))]: the set of the strings, listed in
    increasing order of their code points (bytewise on UTF-8). *)
Definition sorted_issues (issues : list string) : list string :=
  merge_sort String.le (elements (list_to_set issues : gset string)).

Definition print_wildcard_finding (f : wildcard_finding) : M unit :=
  print (OPolicy (wf_PolicyName f)) ;;
  print (OArn (wf_PolicyArn f)) ;;
  print (OStatement (wf_Statement f)).

Definition print_many_finding (f : many_finding) : M unit :=
  print (OPolicyCount (mf_PolicyName f) (mf_ActionCount f)) ;;
  print (OArn (mf_PolicyArn f)) ;;
  print (OStatement (mf_Statement f)).

(** Lines 95 to 121: the report. *)
Definition report : M unit := λ st,
  ((match findings_wildcard st with
    | [] => print ONoWildcard
    | fs => print (OWildcardHeader (length fs)) ;; for_each print_wildcard_finding fs
    end) ;;
   (match findings_many_actions st with
    | [] => print ONoMany
    | fs => print (OManyHeader (length fs) ACTION_COUNT_THRESHOLD) ;;
            for_each print_many_finding fs
    end) ;;
   (match permission_issues st with
    | [] => mret ()
    | issues => print OIssuesHeader ;;
                for_each (λ issue, print (OIssue issue)) (sorted_issues issues)
    end) ;;
   print OComplete) st.

(** The outer [try] of [main]: the handler prints and returns from [main],
    so the report is the continuation of the normal exit only. *)
Definition scan_then (iam : iam_client) (continue : M unit) : M unit := λ st,
  match scan_pages iam (list_policies iam) st with
  | (Raise (ClientError _ message), st') => print (OListError message) st'
  | (Raise e, st') => (Raise e, st')
  | (Ok _, st') => continue st'
  end.

Definition main (iam : iam_client) : M unit :=
  print OScanning ;; scan_then iam report.

(** What a run of the program prints, and how it ends. *)
Definition run (iam : iam_client) : result unit * list out :=
  let '(r, st) := main iam initial in (r, stdout st).

(** ** Statements of the data model

    The fields of a statement as the specification types them: [Action] and
    [Resource] hold a single string or a sequence of strings, [Condition] an
    optional mapping.  The classifiers themselves accept any value. *)

Definition as_str (v : pyval) : option string :=
  match v with PStr s => Some s | _ => None end.

(** A field that is a single string or a sequence of strings, normalized to
    a sequence. *)
Definition normalized (v : pyval) : option (list string) :=
  match v with
  | PStr s => Some [s]
  | PList l => mapM as_str l
  | _ => None
  end.

Definition actions_of (m : gmap string pyval) : option (list string) :=
  normalized (default (PList []) (m !! "Action")).

(** An absent [Resource] stands for ["*"]. *)
Definition resources_of (m : gmap string pyval) : option (list string) :=
  normalized (default (PStr "*") (m !! "Resource")).

Definition effect_is_allow (m : gmap string pyval) : Prop :=
  m !! "Effect" = Some (PStr "Allow").

Definition condition_is_mapping (m : gmap string pyval) : Prop :=
  m !! "Condition" = None ∨ ∃ c, m !! "Condition" = Some (PDict c).

Definition condition_absent_or_empty (m : gmap string pyval) : Prop :=
  m !! "Condition" = None ∨ m !! "Condition" = Some (PDict ∅).

(** [sub] occurs in [s]. *)
Definition has_substring (sub s : string) : Prop :=
  ∃ pre post, s = pre +:+ sub +:+ post.

(** The contract of the wildcard classifier, in the words of the
    specification. *)
Definition wildcard_contract (m : gmap string pyval) (acts ress : list string) : Prop :=
  effect_is_allow m ∧
  "*" ∈ acts ∧
  ("*" ∈ ress ∨ ∃ r, r ∈ ress ∧ has_substring ":*" r) ∧
  condition_absent_or_empty m.

(** The contract of the many-actions classifier: the deduplicated actions
    do not hold ["*"] and the number of distinct action strings reaches the
    threshold. *)
Definition many_contract (threshold : nat) (m : gmap string pyval) (acts : list string) : Prop :=
  effect_is_allow m ∧
  ("*" ∉ remove_dups acts) ∧
  threshold ≤ length (remove_dups acts).

(** ** Predicates on commands and states, for the proofs *)

(** [c] keeps the property [I] of the state. *)
Definition preserves (I : scan_state → Prop) {A} (c : M A) : Prop :=
  ∀ st, I st → I (c st).2.

(** From states related by [R], [c] ends the same way and in states related
    by [R]. *)
Definition respects (R : scan_state → scan_state → Prop) {A} (c : M A) : Prop :=
  ∀ st1 st2, R st1 st2 → (c st1).1 = (c st2).1 ∧ R (c st1).2 (c st2).2.

(** [pages] followed by the rest of the listing. *)
Fixpoint pages_then (pages : list (list policy_entry)) (rest : page_stream) : page_stream :=
  match pages with
  | [] => rest
  | policies :: pages' => Page policies (pages_then pages' rest)
  end.

Definition is_client_error (e : exn) : bool :=
  match e with ClientError _ _ => true | _ => false end.

(** A command from which no [ClientError] escapes. *)
Definition contains_client_errors {A} (c : M A) : Prop :=
  ∀ st e, (c st).1 = Raise e → is_client_error e = false.

(** Every recorded finding is about a statement that its classifier
    accepted; a many-actions finding is about a statement that the wildcard
    classifier rejected, and its count is the value of the [ActionCount]
    expression on that statement. *)
Definition classified (st : scan_state) : Prop :=
  Forall (λ f, is_action_wildcard (wf_Statement f) = Ok true) (findings_wildcard st) ∧
  Forall (λ g, is_action_wildcard (mf_Statement g) = Ok false ∧
               is_many_actions (mf_Statement g) = Ok true ∧
               action_count (mf_Statement g) = Ok (mf_ActionCount g))
         (findings_many_actions st).

Definition with_stdout (st : scan_state) (o : list out) : scan_state :=
  {| findings_wildcard := findings_wildcard st;
     findings_many_actions := findings_many_actions st;
     permission_issues := permission_issues st;
     stdout := o |}.

(** A command that does nothing but print the lines [os]. *)
Definition prints (c : M unit) (os : list out) : Prop :=
  ∀ st, c st = (Ok (), with_stdout st (stdout st ++ os)).

Definition wildcard_finding_lines (f : wildcard_finding) : list out :=
  [OPolicy (wf_PolicyName f); OArn (wf_PolicyArn f); OStatement (wf_Statement f)].

Definition many_finding_lines (f : many_finding) : list out :=
  [OPolicyCount (mf_PolicyName f) (mf_ActionCount f); OArn (mf_PolicyArn f);
   OStatement (mf_Statement f)].

Definition wildcard_section (fs : list wildcard_finding) : list out :=
  match fs with
  | [] => [ONoWildcard]
  | _ => OWildcardHeader (length fs) :: (fs ≫= wildcard_finding_lines)
  end.

Definition many_section (fs : list many_finding) : list out :=
  match fs with
  | [] => [ONoMany]
  | _ => OManyHeader (length fs) ACTION_COUNT_THRESHOLD :: (fs ≫= many_finding_lines)
  end.

Definition issues_section (issues : list string) : list out :=
  match issues with
  | [] => []
  | _ => OIssuesHeader :: (OIssue <$> sorted_issues issues)
  end.

(** The lines of the report for the lists of [st]; [report_stdout] below
    shows that [report] prints them. *)
Definition report_lines (st : scan_state) : list out :=
  wildcard_section (findings_wildcard st) ++
  many_section (findings_many_actions st) ++
  issues_section (permission_issues st) ++ [OComplete].

(** The issue strings among printed lines, in the order printed. *)
Definition issue_lines_of (os : list out) : list string :=
  os ≫= (λ o, match o with OIssue s => [s] | _ => [] end).

(** The operation and the error code with which reading the policy [arn]
    fails with a [ClientError], if it does. *)
Definition fetch_failure (iam : iam_client) (arn : string) : option (string * string) :=
  match get_policy iam arn with
  | Raise (ClientError code _) => Some ("GetPolicy", code)
  | Ok version_id =>
      match get_policy_version iam arn version_id with
      | Raise (ClientError code _) => Some ("GetPolicyVersion", code)
      | _ => None
      end
  | _ => None
  end.

(** The client [iam] with another listing. *)
Definition with_listing (iam : iam_client) (pages : page_stream) : iam_client :=
  {| list_policies := pages;
     get_policy := get_policy iam;
     get_policy_version := get_policy_version iam |}.

Definition is_issue_line (o : out) : bool :=
  match o with OIssuesHeader | OIssue _ => true | _ => false end.

(** The printed lines that are not about permission issues. *)
Definition findings_part (os : list out) : list out :=
  List.filter (λ o, negb (is_issue_line o)) os.

(** Two states with the same findings and the same output; their
    permission issues may differ. *)
Definition same_findings (st1 st2 : scan_state) : Prop :=
  findings_wildcard st1 = findings_wildcard st2 ∧
  findings_many_actions st1 = findings_many_actions st2 ∧
  stdout st1 = stdout st2.

(** ** Shapes outside the data model *)

(** The values that are neither strings nor containers: [x in v] and
    [set(v)] refuse them. *)
Definition is_scalar (v : pyval) : bool :=
  match v with PNone | PBool _ | PInt _ => true | _ => false end.

(** The values whose truth value is false. *)
Definition falsy_values : list pyval :=
  [PNone; PBool false; PInt 0; PStr ""; PList []; PDict ∅].

(** A computation whose exception, if any, is not a [ClientError]. *)
Definition raises_no_client_error {A} (r : result A) : Prop :=
  ∀ e, r = Raise e → is_client_error e = false.

(** A statement whose [Action] and [Resource] have the shape of the data
    model. *)
Definition typed_statement (m : gmap string pyval) : Prop :=
  is_Some (actions_of m) ∧ is_Some (resources_of m).

(** The classifier returned true (it neither returned false nor raised). *)
Definition accepted (r : result bool) : bool :=
  match r with Ok true => true | _ => false end.

(** The findings that the statements [ms] of a policy give, in the order of
    the statements. *)
Definition wildcard_findings_of (name arn : string) (ms : list (gmap string pyval))
    : list wildcard_finding :=
  (λ m, {| wf_PolicyName := name; wf_PolicyArn := arn; wf_Statement := PDict m |})
  <$> List.filter (λ m, accepted (is_action_wildcard (PDict m))) ms.

Definition many_findings_of (name arn : string) (ms : list (gmap string pyval))
    : list many_finding :=
  (λ m, {| mf_PolicyName := name; mf_PolicyArn := arn; mf_Statement := PDict m;
           mf_ActionCount := from_option (length ∘ remove_dups) 0 (actions_of m) |})
  <$> List.filter (λ m, accepted (is_many_actions (PDict m))) ms.

(** The state [st] with more findings. *)
Definition add_findings (st : scan_state) (ws : list wildcard_finding)
    (ms : list many_finding) : scan_state :=
  {| findings_wildcard := findings_wildcard st ++ ws;
     findings_many_actions := findings_many_actions st ++ ms;
     permission_issues := permission_issues st;
     stdout := stdout st |}.

(** ** Sample statements and accounts *)

Definition allow_all : gmap string pyval :=
  list_to_map [("Effect", PStr "Allow"); ("Action", PStr "*"); ("Resource", PStr "*")].

Definition allow_all_on_account : gmap string pyval :=
  list_to_map [("Effect", PStr "Allow");
               ("Action", PList [PStr "iam:PassRole"; PStr "*"]);
               ("Resource", PList [PStr "arn:aws:s3:::logs"; PStr "arn:aws:iam::123456789012:*"])].

Definition allow_all_no_resource : gmap string pyval :=
  list_to_map [("Effect", PStr "Allow"); ("Action", PList [PStr "*"])].

Definition no_effect : gmap string pyval :=
  list_to_map [("Action", PStr "*"); ("Resource", PStr "*")].

Definition twenty_actions : list string :=
  ["s3:GetObject"; "s3:PutObject"; "s3:DeleteObject"; "s3:ListBucket";
   "s3:GetBucketAcl"; "s3:PutBucketAcl"; "s3:GetBucketPolicy"; "s3:PutBucketPolicy";
   "s3:CreateBucket"; "s3:DeleteBucket"; "ec2:RunInstances"; "ec2:StopInstances";
   "ec2:StartInstances"; "ec2:TerminateInstances"; "ec2:DescribeInstances";
   "ec2:CreateTags"; "ec2:DeleteTags"; "iam:PassRole"; "iam:GetRole"; "iam:ListRoles"].

Definition with_actions (acts : list string) : gmap string pyval :=
  list_to_map [("Effect", PStr "Allow"); ("Action", PList (PStr <$> acts));
               ("Resource", PStr "arn:aws:s3:::reports")].

Definition deny_all : gmap string pyval :=
  list_to_map [("Effect", PStr "Deny"); ("Action", PStr "*"); ("Resource", PStr "*")].

Definition document (statements : pyval) : pyval :=
  PDict (list_to_map [("Version", PStr "2012-10-17"); ("Statement", statements)]).

Definition admin_policy : policy_entry :=
  {| PolicyName := "Admin"; Arn := "arn:aws:iam::123456789012:policy/Admin" |}.
Definition locked_policy : policy_entry :=
  {| PolicyName := "Locked"; Arn := "arn:aws:iam::123456789012:policy/Locked" |}.
Definition broad_policy : policy_entry :=
  {| PolicyName := "Broad"; Arn := "arn:aws:iam::123456789012:policy/Broad" |}.

(** An account where [Admin] allows everything, [Broad] lists twenty actions
    in a single statement that is not wrapped in a list, and the version of
    [Locked] cannot be read. *)
Definition sample_versions (arn version_id : string) : result pyval :=
  if bool_decide (arn = Arn admin_policy) then Ok (document (PList [PDict allow_all]))
  else if bool_decide (arn = Arn broad_policy)
       then Ok (document (PDict (with_actions twenty_actions)))
  else Raise (ClientError "AccessDenied" "not authorized to perform iam:GetPolicyVersion").

Definition sample_account : iam_client :=
  {| list_policies := Page [admin_policy; locked_policy] (Page [broad_policy] NoMorePages);
     get_policy := λ _, Ok "v1";
     get_policy_version := sample_versions |}.

(** The same account when the request for the second page is refused. *)
Definition refused_account : iam_client :=
  with_listing sample_account
    (Page [admin_policy; locked_policy]
       (ListingFails "AccessDenied" "not authorized to perform iam:ListPolicies")).

(** An account whose only policy has a document that lists a string where
    a statement should be. *)
Definition malformed_account : iam_client :=
  {| list_policies := Page [admin_policy] NoMorePages;
     get_policy := λ _, Ok "v1";
     get_policy_version := λ _ _, Ok (document (PList [PStr "Allow"])) |}.

(** The sample account without any policy, on one empty page. *)
Definition empty_account : iam_client :=
  with_listing sample_account (Page [] NoMorePages).

(** An [Allow] statement whose [Action] is [null]. *)
Definition null_action : gmap string pyval :=
  list_to_map [("Effect", PStr "Allow"); ("Action", PNone); ("Resource", PStr "*")].

(** [Allow] of everything under an empty [Condition] list, and with a
    number among the resources. *)
Definition allow_all_odd : gmap string pyval :=
  list_to_map [("Effect", PStr "Allow"); ("Action", PStr "*");
               ("Resource", PList [PInt 7; PStr "*"]); ("Condition", PList [])].

(** [Allow] of everything, with an unhashable entry among the actions:
    [set(actions)] raises on it. *)
Definition allow_all_unhashable : gmap string pyval :=
  list_to_map [("Effect", PStr "Allow"); ("Action", PList [PStr "*"; PList []]);
               ("Resource", PStr "*")].

(** ** Strings and containers *)

Lemma append_nil (t : string) : "" +:+ t = t.
Proof. reflexivity. Qed.

Lemma append_cons (a : Ascii.ascii) (s t : string) :
  String a s +:+ t = String a (s +:+ t).
Proof. reflexivity. Qed.

Lemma prefix_spec (p s : string) :
  String.prefix p s = true ↔ ∃ t, s = p +:+ t.
Proof.
  revert s. induction p as [|a p IH]; intros s.
  - split; [intros _; by exists s | by destruct s].
  - destruct s as [|b s]; simpl.
    + split; [done | by intros [t Ht]].
    + destruct (Ascii.ascii_dec a b) as [->|Hab].
      * rewrite IH. split; intros [t Ht]; exists t;
          rewrite append_cons in *; congruence.
      * split; [done | intros [t Ht]; rewrite append_cons in Ht; congruence].
Qed.

Lemma str_contains_unfold (sub s : string) :
  str_contains sub s =
  if String.prefix sub s then true
  else match s with
       | EmptyString => false
       | String _ t => str_contains sub t
       end.
Proof. by destruct s. Qed.

Lemma str_contains_spec (sub s : string) :
  str_contains sub s = true ↔ has_substring sub s.
Proof.
  unfold has_substring. induction s as [|a s IH];
    rewrite str_contains_unfold;
    destruct (String.prefix sub _) eqn:Hp.
  - split; [intros _ | done].
    apply prefix_spec in Hp as [t Ht]. by exists "", t.
  - split; [done | intros (pre & post & H)].
    destruct pre; [|done]. rewrite append_nil in H.
    assert (String.prefix sub "" = true) by (apply prefix_spec; eauto).
    congruence.
  - split; [intros _ | done].
    apply prefix_spec in Hp as [t Ht]. by exists "", t.
  - rewrite IH. split.
    + intros (pre & post & ->). by exists (String a pre), post.
    + intros (pre & post & H). destruct pre as [|b pre].
      * rewrite append_nil in H.
        assert (String.prefix sub (String a s) = true)
          by (apply prefix_spec; eauto).
        congruence.
      * rewrite append_cons in H. injection H as _ ->. eauto.
Qed.

Lemma mapM_as_str (l : list pyval) (k : list string) :
  mapM as_str l = Some k ↔ l = PStr <$> k.
Proof.
  rewrite mapM_Some. split.
  - induction 1 as [|x y l k Hx _ IH]; [done|].
    destruct x; simplify_eq/=. by f_equal.
  - intros ->. induction k; constructor; done.
Qed.

(** A well-typed field after [v = [v] if isinstance(v, str) else v]. *)
Lemma normalized_wrap (v : pyval) (l : list string) :
  normalized v = Some l →
  (if isinstance_str v then PList [v] else v) = PList (PStr <$> l).
Proof.
  destruct v; simpl; try done.
  - by intros [= <-].
  - by intros ->%mapM_as_str.
Qed.

Lemma existsb_eq_str (s : string) (l : list string) :
  existsb (λ x, py_eq_str x s) (PStr <$> l) = bool_decide (s ∈ l).
Proof.
  induction l as [|t l IH]; [done|].
  rewrite fmap_cons. cbn [existsb py_eq_str]. rewrite IH.
  destruct (decide (t = s)) as [->|Hne].
  - rewrite (bool_decide_eq_true_2 (s = s)) by done.
    symmetry. apply bool_decide_eq_true_2. by left.
  - rewrite (bool_decide_eq_false_2 (t = s)) by done.
    apply bool_decide_ext. rewrite elem_of_cons.
    split; [by right | intros [?|?]; [congruence | done]].
Qed.

Lemma py_any_strs (sub : string) (l : list string) :
  py_any (py_in_str sub) (PStr <$> l) = Ok (existsb (str_contains sub) l).
Proof.
  induction l as [|t l IH]; [done|].
  rewrite fmap_cons. cbn [py_any py_in_str existsb mbind result_bind].
  destruct (str_contains sub t); [done | apply IH].
Qed.

Lemma existsb_has_substring (sub : string) (l : list string) :
  existsb (str_contains sub) l = true ↔ ∃ r, r ∈ l ∧ has_substring sub r.
Proof.
  rewrite existsb_exists. split; intros (r & Hr & Hs); exists r.
  - split; [by apply list_elem_of_In | by apply str_contains_spec].
  - split; [by apply list_elem_of_In | by apply str_contains_spec].
Qed.

Global Instance HStr_inj : Inj (=) (=) HStr.
Proof. by intros s t [= ->]. Qed.

Lemma hash_all_strs (l : list string) :
  hash_all (PStr <$> l) = Ok (HStr <$> l).
Proof.
  induction l as [|t l IH]; [done|].
  rewrite !fmap_cons. cbn [hash_all py_hash mbind result_bind].
  by rewrite IH.
Qed.

(** The length of [list(set(l))] is the number of distinct elements of
    [l]. *)
Lemma length_elements_list_to_set `{Countable A} (l : list A) :
  length (elements (list_to_set l : gset A)) = length (remove_dups l).
Proof.
  apply Permutation_length, NoDup_Permutation.
  - apply NoDup_elements.
  - apply NoDup_remove_dups.
  - intros x. by rewrite elem_of_elements, elem_of_list_to_set, elem_of_remove_dups.
Qed.

Lemma remove_dups_fmap_inj `{EqDecision A, EqDecision B} (f : A → B)
    `{!Inj (=) (=) f} (l : list A) :
  remove_dups (f <$> l) = f <$> remove_dups l.
Proof.
  induction l as [|x l IH]; [done|].
  rewrite fmap_cons. cbn [remove_dups]. unfold decide_rel.
  destruct (list_elem_of_dec x l) as [Hx|Hx];
    destruct (list_elem_of_dec (f x) (f <$> l)) as [Hfx|Hfx].
  - done.
  - by apply (list_elem_of_fmap_2 f) in Hx.
  - by apply (list_elem_of_fmap_inj f) in Hfx.
  - by rewrite fmap_cons, IH.
Qed.

Lemma py_set_strs (l : list string) :
  py_set (PList (PStr <$> l)) = Ok (list_to_set (HStr <$> l)).
Proof.
  unfold py_set. cbn [py_iter mbind result_bind].
  by rewrite hash_all_strs.
Qed.

Lemma size_set_strs (l : list string) :
  length (elements (list_to_set (HStr <$> l) : gset hkey)) = length (remove_dups l).
Proof.
  rewrite length_elements_list_to_set. rewrite (remove_dups_fmap_inj HStr).
  apply length_fmap.
Qed.

Lemma star_in_set_strs (s : string) (l : list string) :
  bool_decide (HStr s ∈ elements (list_to_set (HStr <$> l) : gset hkey))
  = bool_decide (s ∈ l).
Proof.
  apply bool_decide_ext.
  by rewrite elem_of_elements, elem_of_list_to_set, (list_elem_of_fmap_inj HStr).
Qed.

(** ** The classifiers on statements of the data model *)

Section typed_statement.
Variable m : gmap string pyval.
Variables acts ress : list string.
Hypothesis Hacts : actions_of m = Some acts.

Lemma is_action_wildcard_typed :
  resources_of m = Some ress →
  is_action_wildcard (PDict m) =
  Ok (py_eq_str (default PNone (m !! "Effect")) "Allow"
      && bool_decide ("*" ∈ acts)
      && (bool_decide ("*" ∈ ress) || existsb (str_contains ":*") ress)
      && negb (truthy (default (PDict ∅) (m !! "Condition")))).
Proof.
  intros Hress. unfold is_action_wildcard, py_ne_str.
  cbn [py_get mbind result_bind].
  destruct (py_eq_str _ "Allow"); [|done]. cbn [negb].
  rewrite (normalized_wrap _ _ Hacts), (normalized_wrap _ _ Hress).
  cbn [py_in_str py_iter mbind result_bind]. rewrite !existsb_eq_str.
  destruct (bool_decide ("*" ∈ acts)); [|done]. cbn [negb andb].
  destruct (bool_decide ("*" ∈ ress)); cbn [orb]; [done|].
  rewrite py_any_strs. cbn [mbind result_bind].
  by destruct (existsb _ ress).
Qed.

Lemma is_many_actions_typed (threshold : nat) :
  is_many_actions_with threshold (PDict m) =
  Ok (py_eq_str (default PNone (m !! "Effect")) "Allow"
      && negb (bool_decide ("*" ∈ acts))
      && bool_decide (threshold ≤ length (remove_dups acts))).
Proof.
  unfold is_many_actions_with, py_ne_str.
  cbn [py_get mbind result_bind].
  destruct (py_eq_str _ "Allow"); [|done]. cbn [negb].
  rewrite (normalized_wrap _ _ Hacts), py_set_strs.
  cbn [mbind result_bind]. rewrite star_in_set_strs, size_set_strs.
  by destruct (bool_decide ("*" ∈ acts)).
Qed.
End typed_statement.

Lemma effect_allow_spec (m : gmap string pyval) :
  py_eq_str (default PNone (m !! "Effect")) "Allow" = true ↔ effect_is_allow m.
Proof.
  unfold effect_is_allow. destruct (m !! "Effect") as [[]|]; simpl; try done.
  rewrite bool_decide_eq_true. split; congruence.
Qed.

Lemma condition_spec (m : gmap string pyval) :
  condition_is_mapping m →
  negb (truthy (default (PDict ∅) (m !! "Condition"))) = true
  ↔ condition_absent_or_empty m.
Proof.
  unfold condition_absent_or_empty.
  intros [Hc|[c Hc]]; rewrite Hc; simpl.
  - split; [by left | done].
  - rewrite negb_true_iff, bool_decide_eq_false. split.
    + intros Hn. right. f_equal. f_equal. by destruct (decide (c = ∅)).
    + intros [?|[= ->]]; [done | tauto].
Qed.

Lemma wildcard_typed_spec (m : gmap string pyval) (acts ress : list string) :
  condition_is_mapping m →
  py_eq_str (default PNone (m !! "Effect")) "Allow"
    && bool_decide ("*" ∈ acts)
    && (bool_decide ("*" ∈ ress) || existsb (str_contains ":*") ress)
    && negb (truthy (default (PDict ∅) (m !! "Condition"))) = true
  ↔ wildcard_contract m acts ress.
Proof.
  intros Hc. unfold wildcard_contract.
  rewrite !andb_true_iff, orb_true_iff, !bool_decide_eq_true.
  rewrite effect_allow_spec, existsb_has_substring, (condition_spec _ Hc).
  tauto.
Qed.

Lemma many_typed_spec (threshold : nat) (m : gmap string pyval) (acts : list string) :
  py_eq_str (default PNone (m !! "Effect")) "Allow"
    && negb (bool_decide ("*" ∈ acts))
    && bool_decide (threshold ≤ length (remove_dups acts)) = true
  ↔ many_contract threshold m acts.
Proof.
  unfold many_contract.
  rewrite !andb_true_iff, negb_true_iff, bool_decide_eq_false, bool_decide_eq_true.
  rewrite effect_allow_spec, elem_of_remove_dups. tauto.
Qed.

Lemma length_remove_dups_NoDup `{EqDecision A} (l : list A) :
  NoDup l → length (remove_dups l) = length l.
Proof.
  intros Hl. apply Permutation_length, NoDup_Permutation;
    [apply NoDup_remove_dups | done | apply elem_of_remove_dups].
Qed.

(** ** The contract of the wildcard classifier *)

(** C1. On a statement of the data model, [is_action_wildcard] returns true
    exactly when the effect is [Allow], the normalized action sequence holds
    the literal ["*"], the normalized resource sequence holds ["*"] or an
    entry with the substring [":*"], and the condition is absent or empty;
    otherwise it returns false.  Giving a statement that satisfies the four
    parts a non-empty condition makes it return false. *)
Theorem is_action_wildcard_contract (m : gmap string pyval) (acts ress : list string) :
  actions_of m = Some acts →
  resources_of m = Some ress →
  condition_is_mapping m →
  (is_action_wildcard (PDict m) = Ok true ↔ wildcard_contract m acts ress) ∧
  (¬ wildcard_contract m acts ress → is_action_wildcard (PDict m) = Ok false) ∧
  (wildcard_contract m acts ress →
   ∀ c : gmap string pyval, c ≠ ∅ →
     is_action_wildcard (PDict (<["Condition" := PDict c]> m)) = Ok false).
Proof.
  intros Ha Hr Hc. split; [|split].
  - rewrite (is_action_wildcard_typed _ _ _ Ha Hr), <-(wildcard_typed_spec _ _ _ Hc).
    split; [by intros [= ->] | by intros ->].
  - rewrite (is_action_wildcard_typed _ _ _ Ha Hr), <-(wildcard_typed_spec _ _ _ Hc).
    by intros ->%not_true_is_false.
  - intros _ c Hne.
    rewrite (is_action_wildcard_typed _ acts ress).
    + rewrite lookup_insert_eq. simpl.
      rewrite (bool_decide_eq_true_2 (c ≠ ∅)) by done.
      by rewrite andb_false_r.
    + unfold actions_of. by rewrite lookup_insert_ne.
    + unfold resources_of. by rewrite lookup_insert_ne.
Qed.

(** ** Reasoning about commands *)

Lemma run_bind {A B} (m : M A) (f : A → M B) (st : scan_state) :
  (m ≫= f) st =
  match m st with
  | (Ok a, st') => f a st'
  | (Raise e, st') => (Raise e, st')
  end.
Proof. reflexivity. Qed.

Lemma run_for_each_cons {A} (body : A → M unit) (x : A) (l : list A) (st : scan_state) :
  for_each body (x :: l) st =
  match body x st with
  | (Ok _, st') => for_each body l st'
  | (Raise e, st') => (Raise e, st')
  end.
Proof. reflexivity. Qed.

Lemma run_for_each_app {A} (body : A → M unit) (l k : list A) (st : scan_state) :
  for_each body (l ++ k) st =
  match for_each body l st with
  | (Ok _, st') => for_each body k st'
  | (Raise e, st') => (Raise e, st')
  end.
Proof.
  revert st. induction l as [|x l IH]; intros st; [done|].
  rewrite <-app_comm_cons, !run_for_each_cons.
  destruct (body x st) as [[[]|e] st']; [apply IH | done].
Qed.

(** Properties of the state that every step of the scan keeps. *)
Section preserves.
Variable I : scan_state → Prop.

Lemma preserves_lift {A} (r : result A) : preserves I (lift r).
Proof. by intros st. Qed.

Lemma preserves_ret {A} (a : A) : preserves I (mret a : M A).
Proof. by intros st. Qed.

Lemma preserves_bind {A B} (m : M A) (f : A → M B) :
  preserves I m → (∀ a, preserves I (f a)) → preserves I (m ≫= f).
Proof.
  intros Hm Hf st Hst. rewrite run_bind.
  specialize (Hm st Hst). destruct (m st) as [[a|e] st']; [by apply Hf | done].
Qed.

Lemma preserves_try_except (body : M unit) (handler : string → string → M unit) :
  preserves I body → (∀ c msg, preserves I (handler c msg)) →
  preserves I (try_except body handler).
Proof.
  intros Hb Hh st Hst. unfold try_except.
  specialize (Hb st Hst). destruct (body st) as [[[]|[]] st']; try done.
  by apply Hh.
Qed.

Lemma preserves_for_each {A} (body : A → M unit) (l : list A) :
  (∀ x, preserves I (body x)) → preserves I (for_each body l).
Proof.
  intros Hb. induction l as [|x l IH]; [by apply preserves_ret|].
  by apply preserves_bind.
Qed.

Lemma preserves_scan_statement (name arn : string) (stmt : pyval) :
  (∀ f, preserves I (append_wildcard f)) → (∀ f, preserves I (append_many f)) →
  preserves I (scan_statement name arn stmt).
Proof.
  intros Hw Hm. unfold scan_statement.
  apply preserves_bind; [apply preserves_lift|]. intros [|]; [done|].
  apply preserves_bind; [apply preserves_lift|]. intros [|]; [|apply preserves_ret].
  apply preserves_bind; [apply preserves_lift|]. done.
Qed.

Hypothesis I_issue : ∀ issue, preserves I (append_issue issue).
Hypothesis I_statement : ∀ name arn stmt, preserves I (scan_statement name arn stmt).

Lemma preserves_scan_policy (iam : iam_client) (policy : policy_entry) :
  preserves I (scan_policy iam policy).
Proof.
  unfold scan_policy.
  apply preserves_try_except; [|done].
  apply preserves_bind; [apply preserves_lift|]. intros version_id.
  apply preserves_try_except; [|done].
  repeat (apply preserves_bind; [apply preserves_lift|]; intros ?).
  by apply preserves_for_each.
Qed.

Lemma preserves_scan_pages (iam : iam_client) (pages : page_stream) :
  preserves I (scan_pages iam pages).
Proof.
  induction pages as [|policies next IH|code message];
    [apply preserves_ret| |apply preserves_lift].
  apply preserves_bind; [|done].
  apply preserves_for_each, preserves_scan_policy.
Qed.
End preserves.

(** Two runs of the scan from related states: the same outcome, and related
    states again. *)
Section respects.
Variable R : scan_state → scan_state → Prop.

Lemma respects_lift {A} (r : result A) : respects R (lift r).
Proof. by intros st1 st2. Qed.

Lemma respects_ret {A} (a : A) : respects R (mret a : M A).
Proof. by intros st1 st2. Qed.

Lemma respects_bind {A B} (m : M A) (f : A → M B) :
  respects R m → (∀ a, respects R (f a)) → respects R (m ≫= f).
Proof.
  intros Hm Hf st1 st2 Hst. rewrite !run_bind.
  destruct (Hm st1 st2 Hst) as [Hr HR].
  destruct (m st1) as [r1 st1'], (m st2) as [r2 st2']; simpl in *; subst r2.
  destruct r1 as [a|e]; [by apply Hf | done].
Qed.

Lemma respects_try_except (body : M unit) (handler : string → string → M unit) :
  respects R body → (∀ c msg, respects R (handler c msg)) →
  respects R (try_except body handler).
Proof.
  intros Hb Hh st1 st2 Hst. unfold try_except.
  destruct (Hb st1 st2 Hst) as [Hr HR].
  destruct (body st1) as [r1 st1'], (body st2) as [r2 st2']; simpl in *; subst r2.
  destruct r1 as [[]|[]]; try done. by apply Hh.
Qed.

Lemma respects_for_each {A} (body : A → M unit) (l : list A) :
  (∀ x, respects R (body x)) → respects R (for_each body l).
Proof.
  intros Hb. induction l as [|x l IH]; [by apply respects_ret|].
  by apply respects_bind.
Qed.

Hypothesis R_wildcard : ∀ f, respects R (append_wildcard f).
Hypothesis R_many : ∀ f, respects R (append_many f).
Hypothesis R_issue : ∀ issue, respects R (append_issue issue).

Lemma respects_scan_statement (name arn : string) (stmt : pyval) :
  respects R (scan_statement name arn stmt).
Proof.
  unfold scan_statement.
  apply respects_bind; [apply respects_lift|]. intros [|]; [done|].
  apply respects_bind; [apply respects_lift|]. intros [|]; [|apply respects_ret].
  apply respects_bind; [apply respects_lift|]. done.
Qed.

Lemma respects_scan_policy (iam : iam_client) (policy : policy_entry) :
  respects R (scan_policy iam policy).
Proof.
  unfold scan_policy.
  apply respects_try_except; [|done].
  apply respects_bind; [apply respects_lift|]. intros version_id.
  apply respects_try_except; [|done].
  repeat (apply respects_bind; [apply respects_lift|]; intros ?).
  apply respects_for_each, respects_scan_statement.
Qed.

Lemma respects_scan_pages (iam : iam_client) (pages : page_stream) :
  respects R (scan_pages iam pages).
Proof.
  induction pages as [|policies next IH|code message];
    [apply respects_ret| |apply respects_lift].
  apply respects_bind; [|done].
  apply respects_for_each, respects_scan_policy.
Qed.
End respects.

(** ** The listing and its failure *)

Lemma scan_pages_pages_then (iam : iam_client) (pages : list (list policy_entry))
    (rest : page_stream) (st : scan_state) :
  scan_pages iam (pages_then pages rest) st =
  match scan_pages iam (pages_then pages NoMorePages) st with
  | (Ok _, st') => scan_pages iam rest st'
  | (Raise e, st') => (Raise e, st')
  end.
Proof.
  revert st. induction pages as [|policies pages IH]; intros st; [done|].
  cbn [pages_then scan_pages]. rewrite !run_bind.
  destruct (for_each (scan_policy iam) policies st) as [[[]|e] st']; [apply IH | done].
Qed.

Lemma contains_try_except (body : M unit) (handler : string → string → M unit) :
  (∀ c msg, contains_client_errors (handler c msg)) →
  contains_client_errors (try_except body handler).
Proof.
  intros Hh st e. unfold try_except.
  destruct (body st) as [[[]|[]] st'] eqn:Hb; simpl; try by intros [= <-].
  apply Hh.
Qed.

Lemma contains_append_issue (issue : string) :
  contains_client_errors (append_issue issue).
Proof. by intros st e. Qed.

Lemma contains_scan_policy (iam : iam_client) (policy : policy_entry) :
  contains_client_errors (scan_policy iam policy).
Proof. apply contains_try_except. intros c msg. apply contains_append_issue. Qed.

Lemma contains_for_each {A} (body : A → M unit) (l : list A) :
  (∀ x, contains_client_errors (body x)) →
  contains_client_errors (for_each body l).
Proof.
  intros Hb. induction l as [|x l IH]; intros st e; [done|].
  rewrite run_for_each_cons. specialize (Hb x st).
  destruct (body x st) as [[[]|e'] st']; simpl in *; [apply IH|].
  intros [= <-]. by apply Hb.
Qed.

Lemma contains_scan_pages (iam : iam_client) (pages : list (list policy_entry)) :
  contains_client_errors (scan_pages iam (pages_then pages NoMorePages)).
Proof.
  induction pages as [|policies pages IH]; intros st e; [done|].
  cbn [pages_then scan_pages]. rewrite run_bind.
  pose proof (contains_for_each _ policies (contains_scan_policy iam) st) as Hp.
  destruct (for_each (scan_policy iam) policies st) as [[[]|e'] st']; simpl in *;
    [apply IH|].
  intros [= <-]. by apply Hp.
Qed.

(** The scan prints nothing and its outcome does not depend on the state it
    starts from. *)
Lemma scan_pages_stdout (iam : iam_client) (pages : page_stream) (st : scan_state) :
  stdout (scan_pages iam pages st).2 = stdout st.
Proof.
  apply (preserves_scan_pages (λ st', stdout st' = stdout st)); [| |done].
  - by intros issue st'.
  - intros name arn stmt. by apply preserves_scan_statement; intros f st'.
Qed.

Lemma scan_pages_outcome (iam : iam_client) (pages : page_stream) (st1 st2 : scan_state) :
  (scan_pages iam pages st1).1 = (scan_pages iam pages st2).1.
Proof.
  by apply (respects_scan_pages (λ _ _, True)).
Qed.

Lemma run_unfold (iam : iam_client) :
  run iam =
  let '(r, st) := scan_then iam report (print OScanning initial).2 in (r, stdout st).
Proof. reflexivity. Qed.

(** C4. When a request of the listing fails with a client error, on the
    first page or after earlier pages were scanned (to their end, that is
    without an exception that [main] does not catch), the run prints the
    opening line and that one failure, and nothing else: no finding, no
    confirmation line, no permission issue. *)
Theorem listing_failure_aborts (iam : iam_client) (pages : list (list policy_entry))
    (code message : string) :
  list_policies iam = pages_then pages (ListingFails code message) →
  (scan_pages iam (pages_then pages NoMorePages) initial).1 = Ok () →
  run iam = (Ok (), [OScanning; OListError message]).
Proof.
  intros Hlist Hscan. rewrite run_unfold. unfold scan_then.
  rewrite Hlist, scan_pages_pages_then.
  set (st0 := (print OScanning initial).2).
  pose proof (scan_pages_stdout iam (pages_then pages NoMorePages) st0) as Hout.
  rewrite (scan_pages_outcome _ _ initial st0) in Hscan.
  destruct (scan_pages iam (pages_then pages NoMorePages) st0) as [r st'].
  simpl in Hscan, Hout. subst r. simpl. by rewrite Hout.
Qed.

(** The other way a run with a failing listing can end: an exception that
    [main] does not catch stopped it on an earlier page. *)
Lemma listing_failure_not_reached (iam : iam_client) (pages : list (list policy_entry))
    (code message : string) (e : exn) :
  list_policies iam = pages_then pages (ListingFails code message) →
  (scan_pages iam (pages_then pages NoMorePages) initial).1 = Raise e →
  is_client_error e = false ∧ run iam = (Raise e, [OScanning]).
Proof.
  intros Hlist Hscan. rewrite run_unfold. unfold scan_then.
  rewrite Hlist, scan_pages_pages_then.
  set (st0 := (print OScanning initial).2).
  pose proof (scan_pages_stdout iam (pages_then pages NoMorePages) st0) as Hout.
  pose proof (contains_scan_pages iam pages st0 e) as Hce.
  rewrite (scan_pages_outcome _ _ initial st0) in Hscan.
  destruct (scan_pages iam (pages_then pages NoMorePages) st0) as [r st'].
  simpl in Hscan, Hout, Hce. subst r. specialize (Hce eq_refl).
  split; [done|]. destruct e; try done; simpl; by rewrite Hout.
Qed.

(** C2. On a statement of the data model, [is_many_actions] returns true
    exactly when the effect is [Allow], the deduplicated actions do not hold
    ["*"], and there are at least [threshold] distinct action strings, the
    threshold being 20; otherwise it returns false.  So 20 distinct actions
    without the wildcard classify true, 19 classify false, and 25 entries
    with 15 distinct values classify false. *)
Theorem is_many_actions_contract (m : gmap string pyval) (acts : list string) :
  actions_of m = Some acts →
  (∀ threshold,
     (is_many_actions_with threshold (PDict m) = Ok true
      ↔ many_contract threshold m acts) ∧
     (¬ many_contract threshold m acts →
      is_many_actions_with threshold (PDict m) = Ok false)) ∧
  (is_many_actions (PDict m) = Ok true ↔ many_contract 20 m acts) ∧
  (effect_is_allow m → "*" ∉ acts → NoDup acts → length acts = 20 →
   is_many_actions (PDict m) = Ok true) ∧
  (NoDup acts → length acts = 19 → is_many_actions (PDict m) = Ok false) ∧
  (length acts = 25 → length (remove_dups acts) = 15 →
   is_many_actions (PDict m) = Ok false).
Proof.
  intros Ha.
  assert (∀ threshold,
    (is_many_actions_with threshold (PDict m) = Ok true
     ↔ many_contract threshold m acts) ∧
    (¬ many_contract threshold m acts →
     is_many_actions_with threshold (PDict m) = Ok false)) as Hspec.
  { intros threshold.
    rewrite (is_many_actions_typed _ _ Ha), <-many_typed_spec. split.
    - split; [by intros [= ->] | by intros ->].
    - by intros ->%not_true_is_false. }
  split; [done|]. split; [apply Hspec|].
  unfold is_many_actions, ACTION_COUNT_THRESHOLD. split; [|split].
  - intros He Hstar Hnd Hlen. apply Hspec. split; [done|]. split.
    + by rewrite elem_of_remove_dups.
    + rewrite length_remove_dups_NoDup by done. lia.
  - intros Hnd Hlen. apply Hspec. intros (_ & _ & Hle).
    rewrite length_remove_dups_NoDup in Hle by done. lia.
  - intros _ Hlen. apply Hspec. intros (_ & _ & Hle). lia.
Qed.

(** C7. A statement without a [Resource] key is read as one whose resource
    is ["*"]: with effect [Allow], ["*"] among its actions and the condition
    absent or empty, [is_action_wildcard] returns true. *)
Theorem absent_resource_defaults_to_star (m : gmap string pyval) (acts : list string) :
  effect_is_allow m →
  actions_of m = Some acts →
  "*" ∈ acts →
  m !! "Resource" = None →
  condition_absent_or_empty m →
  is_action_wildcard (PDict m) = Ok true.
Proof.
  intros He Ha Hstar Hr Hc.
  assert (resources_of m = Some ["*"]) as Hress
    by (unfold resources_of; by rewrite Hr).
  assert (condition_is_mapping m) as Hmap
    by (destruct Hc; [by left | right; eauto]).
  rewrite (is_action_wildcard_typed _ _ _ Ha Hress). f_equal.
  apply (wildcard_typed_spec _ _ _ Hmap).
  split; [done|]. split; [done|]. split; [|done]. left. by left.
Qed.

(** C9. A statement mapping without an [Effect] key, or without an [Action]
    key, makes both classifiers return false; neither raises. *)
Theorem classifiers_false_on_missing_keys (m : gmap string pyval) :
  m !! "Effect" = None ∨ m !! "Action" = None →
  is_action_wildcard (PDict m) = Ok false ∧ is_many_actions (PDict m) = Ok false.
Proof.
  unfold is_action_wildcard, is_many_actions, is_many_actions_with.
  cbn [py_get mbind result_bind].
  intros [-> | ->]; [done|].
  by destruct (py_ne_str _ "Allow").
Qed.

(** ** The wildcard among the actions, untyped *)

Lemma existsb_py_eq_str (l : list pyval) (k : string) :
  existsb (λ x, py_eq_str x k) l = true → PStr k ∈ l.
Proof.
  rewrite existsb_exists. intros (x & Hx%list_elem_of_In & Heq).
  destruct x; try done. simpl in Heq. by apply bool_decide_eq_true in Heq as ->.
Qed.

Lemma hash_all_elem (l : list pyval) (ks : list hkey) (k : string) :
  hash_all l = Ok ks → PStr k ∈ l → HStr k ∈ ks.
Proof.
  revert ks. induction l as [|x l IH]; intros ks Hks Hk.
  { by apply elem_of_nil in Hk. }
  cbn [hash_all mbind result_bind] in Hks.
  destruct (py_hash x) as [kx|] eqn:Hx; [|done]. cbn in Hks.
  destruct (hash_all l) as [ks'|]; [|done]. injection Hks as <-.
  apply elem_of_cons in Hk as [<- | Hk].
  - injection Hx as <-. by left.
  - right. by apply IH.
Qed.

(** What [in] finds in a list or a dict is an element of its [set]. *)
Lemma py_in_set (k : string) (v : pyval) (s : gset hkey) :
  isinstance_str v = false →
  py_in_str k v = Ok true →
  py_set v = Ok s →
  HStr k ∈ s.
Proof.
  intros Hv Hin Hset. unfold py_set in Hset.
  assert (∃ l, py_iter v = Ok l ∧ PStr k ∈ l) as (l & Hl & Hk).
  { destruct v; try done; simpl in *; injection Hin as Hin.
    - eauto using existsb_py_eq_str.
    - eexists; split; [done|].
      apply list_elem_of_fmap_2, elem_of_elements, elem_of_dom.
      by apply bool_decide_eq_true in Hin. }
  rewrite Hl in Hset. cbn [mbind result_bind] in Hset.
  destruct (hash_all l) as [ks|] eqn:Hks; [|done]. injection Hset as <-.
  apply elem_of_list_to_set. by apply (hash_all_elem l).
Qed.

Lemma wrap_not_str (v : pyval) :
  isinstance_str (if isinstance_str v then PList [v] else v) = false.
Proof. by destruct v. Qed.

Lemma wildcard_excludes_many (threshold : nat) (stmt : pyval) :
  is_action_wildcard stmt = Ok true →
  is_many_actions_with threshold stmt ≠ Ok true.
Proof.
  destruct stmt as [| | | | |d]; try done.
  unfold is_action_wildcard, is_many_actions_with.
  cbn [py_get mbind result_bind].
  destruct (py_ne_str _ "Allow"); [done|].
  pose proof (wrap_not_str (default (PList []) (d !! "Action"))) as Hw.
  set (actions := if isinstance_str _ then _ else _) in *.
  destruct (py_in_str "*" actions) as [[|]|] eqn:Hin; [|done..].
  intros _. destruct (py_set actions) as [s|] eqn:Hset; [|done].
  cbn [mbind result_bind].
  rewrite bool_decide_eq_true_2; [done|].
  apply elem_of_elements. by apply (py_in_set _ actions).
Qed.

(** C10. The lookup [stmt["Action"]] of the many-actions finding cannot
    fail: a statement that [is_many_actions] accepts, with a threshold of at
    least one, has an [Action] key, and the whole [ActionCount] expression
    has a value. *)
Theorem many_actions_has_action_key (threshold : nat) (stmt : pyval) :
  1 ≤ threshold →
  is_many_actions_with threshold stmt = Ok true →
  (∃ d v, stmt = PDict d ∧ d !! "Action" = Some v ∧ py_getitem stmt "Action" = Ok v) ∧
  (∃ n, action_count stmt = Ok n).
Proof.
  intros Hth. destruct stmt as [| | | | |d]; try done.
  unfold is_many_actions_with, action_count.
  cbn [py_get py_getitem mbind result_bind].
  destruct (py_ne_str _ "Allow"); [done|].
  destruct (d !! "Action") as [v|] eqn:Hv; simpl.
  - intros Hmany. split; [by exists d, v|].
    destruct v as [| | | |l|d']; simpl in *; eauto.
    destruct (py_set (PList l)) as [s|].
    + exists (size s). reflexivity.
    + discriminate Hmany.
  - intros [= Hle%bool_decide_eq_true]. change (threshold ≤ 0) in Hle. lia.
Qed.

(** ** What the findings lists hold *)

Lemma scan_statement_cases (name arn : string) (stmt : pyval) (st : scan_state) :
  (is_action_wildcard stmt = Ok true ∧
   scan_statement name arn stmt st =
   append_wildcard {| wf_PolicyName := name; wf_PolicyArn := arn;
                      wf_Statement := stmt |} st) ∨
  (is_action_wildcard stmt = Ok false ∧ is_many_actions stmt = Ok true ∧
   ∃ n, action_count stmt = Ok n ∧
        scan_statement name arn stmt st =
        append_many {| mf_PolicyName := name; mf_PolicyArn := arn;
                       mf_Statement := stmt; mf_ActionCount := n |} st) ∨
  (scan_statement name arn stmt st).2 = st.
Proof.
  unfold scan_statement. rewrite run_bind. unfold lift at 1.
  destruct (is_action_wildcard stmt) as [[|]|]; [by left | | by right; right].
  rewrite run_bind. unfold lift at 1.
  destruct (is_many_actions stmt) as [[|]|]; [| by right; right..].
  rewrite run_bind. unfold lift at 1.
  destruct (action_count stmt) as [n|]; [| by right; right].
  right; left. eauto.
Qed.

Lemma classified_scan_statement (name arn : string) (stmt : pyval) :
  preserves classified (scan_statement name arn stmt).
Proof.
  intros st [Hw Hm].
  destruct (scan_statement_cases name arn stmt st)
    as [[Hwild ->] | [(Hwild & Hmany & n & Hn & ->) | ->]]; [| |done].
  - split; [|done]. simpl. apply Forall_app. split; [done|]. by constructor.
  - split; [done|]. simpl. apply Forall_app. split; [done|]. by constructor.
Qed.

Lemma preserves_report (I : scan_state → Prop) :
  (∀ o, preserves I (print o)) → preserves I report.
Proof.
  intros Hp st Hst. unfold report.
  assert (∀ A (body : A → M unit) l,
    (∀ x, preserves I (body x)) → preserves I (for_each body l)) as Hfor
    by (intros; by apply preserves_for_each).
  refine (preserves_bind I _ _ _ _ st Hst).
  { destruct (findings_wildcard st); [done|].
    apply preserves_bind; [done|]. intros _. apply Hfor. intros f.
    repeat (apply preserves_bind; [done|]; intros _). done. }
  intros _. apply preserves_bind.
  { destruct (findings_many_actions st); [done|].
    apply preserves_bind; [done|]. intros _. apply Hfor. intros f.
    repeat (apply preserves_bind; [done|]; intros _). done. }
  intros _. apply preserves_bind; [|done].
  destruct (permission_issues st); [apply preserves_ret|].
  apply preserves_bind; [done|]. intros _. by apply Hfor.
Qed.

Lemma preserves_main (I : scan_state → Prop) (iam : iam_client) :
  (∀ o, preserves I (print o)) →
  (∀ issue, preserves I (append_issue issue)) →
  (∀ name arn stmt, preserves I (scan_statement name arn stmt)) →
  preserves I (main iam).
Proof.
  intros Hp Hi Hs. unfold main. apply preserves_bind; [done|]. intros _.
  intros st Hst. unfold scan_then.
  pose proof (preserves_scan_pages I Hi Hs iam (list_policies iam) st Hst) as Hscan.
  destruct (scan_pages iam (list_policies iam) st) as [[[]|[]] st']; simpl in *;
    try done.
  - by apply preserves_report.
  - by apply Hp.
Qed.

Lemma classified_main (iam : iam_client) : classified (main iam initial).2.
Proof.
  apply (preserves_main classified iam).
  - by intros o st.
  - by intros issue st.
  - apply classified_scan_statement.
  - by split; constructor.
Qed.

Lemma action_count_typed (m : gmap string pyval) (acts : list string) :
  actions_of m = Some acts →
  is_many_actions (PDict m) = Ok true →
  action_count (PDict m) = Ok (length (remove_dups acts)).
Proof.
  intros Ha Hmany. unfold is_many_actions in Hmany.
  rewrite (is_many_actions_typed _ _ Ha) in Hmany. injection Hmany as Hmany.
  apply many_typed_spec in Hmany as (_ & _ & Hle).
  unfold ACTION_COUNT_THRESHOLD in Hle.
  unfold actions_of in Ha. unfold action_count. cbn [py_getitem].
  destruct (m !! "Action") as [v|]; simpl in Ha.
  - destruct v as [| | |s|l|]; try done.
    + injection Ha as <-. simpl in Hle. lia.
    + apply mapM_as_str in Ha as ->.
      cbn [from_option mbind result_bind isinstance_list].
      rewrite py_set_strs. cbn [mbind result_bind]. f_equal. apply size_set_strs.
  - injection Ha as <-. simpl in Hle. lia.
Qed.

(** C3. No statement is accepted by both classifiers: when ["*"] is among
    the actions [is_many_actions] does not return true (on a statement of
    the data model it returns false).  In the driver a statement adds a
    many-actions finding only when the wildcard classifier returned false,
    and then adds no wildcard finding; so no statement of a wildcard finding
    of a run is the statement of one of its many-actions findings.  The
    driver consults the many-actions classifier only when the wildcard
    classifier returned false: when the wildcard classifier returns true the
    statement is recorded as a wildcard finding, and when it raises the
    exception is the outcome, whatever the many-actions classifier would
    return or raise; when it returns false the outcome is the one the
    many-actions classifier decides. *)
Theorem classifiers_mutually_exclusive :
  (∀ threshold stmt,
     ¬ (is_action_wildcard stmt = Ok true ∧
        is_many_actions_with threshold stmt = Ok true)) ∧
  (∀ threshold m acts,
     actions_of m = Some acts → "*" ∈ acts →
     is_many_actions_with threshold (PDict m) = Ok false) ∧
  (∀ name arn stmt st,
     let st' := (scan_statement name arn stmt st).2 in
     findings_many_actions st' = findings_many_actions st ∨
     (findings_wildcard st' = findings_wildcard st ∧
      is_action_wildcard stmt = Ok false)) ∧
  (∀ iam f g,
     f ∈ findings_wildcard (main iam initial).2 →
     g ∈ findings_many_actions (main iam initial).2 →
     wf_Statement f ≠ mf_Statement g) ∧
  (∀ name arn stmt st,
     is_action_wildcard stmt = Ok true →
     scan_statement name arn stmt st =
     append_wildcard {| wf_PolicyName := name; wf_PolicyArn := arn;
                        wf_Statement := stmt |} st) ∧
  (∀ name arn stmt st e,
     is_action_wildcard stmt = Raise e →
     scan_statement name arn stmt st = (Raise e, st)) ∧
  (∀ name arn stmt st,
     is_action_wildcard stmt = Ok false →
     scan_statement name arn stmt st =
     match is_many_actions stmt with
     | Ok true =>
         match action_count stmt with
         | Ok n => append_many {| mf_PolicyName := name; mf_PolicyArn := arn;
                                  mf_Statement := stmt; mf_ActionCount := n |} st
         | Raise e => (Raise e, st)
         end
     | Ok false => (Ok (), st)
     | Raise e => (Raise e, st)
     end).
Proof.
  split; [|split; [|split; [|split; [|split; [|split]]]]].
  - intros threshold stmt [Hw Hm]. by apply (wildcard_excludes_many threshold) in Hw.
  - intros threshold m acts Ha Hstar.
    rewrite (is_many_actions_typed _ _ Ha).
    rewrite (bool_decide_eq_true_2 _ Hstar). by rewrite andb_false_r.
  - intros name arn stmt st st'. subst st'.
    destruct (scan_statement_cases name arn stmt st)
      as [[Hwild ->] | [(Hwild & Hmany & n & Hn & ->) | ->]];
      [by left | by right | by left].
  - intros iam f g Hf Hg Heq.
    destruct (classified_main iam) as [Hw Hm].
    rewrite Forall_forall in Hw. rewrite Forall_forall in Hm.
    specialize (Hw f Hf). destruct (Hm g Hg) as (Hno & _). congruence.
  - intros name arn stmt st Hw.
    unfold scan_statement. rewrite run_bind. unfold lift at 1. by rewrite Hw.
  - intros name arn stmt st e Hw.
    unfold scan_statement. rewrite run_bind. unfold lift at 1. by rewrite Hw.
  - intros name arn stmt st Hw.
    unfold scan_statement. rewrite run_bind. unfold lift at 1. rewrite Hw.
    rewrite run_bind. unfold lift at 1.
    destruct (is_many_actions stmt) as [[|]|e]; [|done..].
    rewrite run_bind. unfold lift at 1. by destruct (action_count stmt).
Qed.

(** C8. The [ActionCount] of every many-actions finding of a run is the
    number of distinct action strings of its statement; a statement with 20
    distinct actions without the wildcard is recorded with the count 20. *)
Theorem many_finding_action_count :
  (∀ iam g m acts,
     g ∈ findings_many_actions (main iam initial).2 →
     mf_Statement g = PDict m →
     actions_of m = Some acts →
     mf_ActionCount g = length (remove_dups acts)) ∧
  (∀ name arn m acts st,
     effect_is_allow m → actions_of m = Some acts →
     NoDup acts → "*" ∉ acts → length acts = 20 →
     scan_statement name arn (PDict m) st =
     append_many {| mf_PolicyName := name; mf_PolicyArn := arn;
                    mf_Statement := PDict m; mf_ActionCount := 20 |} st).
Proof.
  split.
  - intros iam g m acts Hg Hstmt Ha.
    destruct (classified_main iam) as [_ Hm]. rewrite Forall_forall in Hm.
    destruct (Hm g Hg) as (_ & Hmany & Hcount). rewrite Hstmt in Hmany, Hcount.
    rewrite (action_count_typed _ _ Ha Hmany) in Hcount. by injection Hcount.
  - intros name arn m acts st He Ha Hnd Hstar Hlen.
    assert (is_many_actions (PDict m) = Ok true) as Hmany.
    { unfold is_many_actions. rewrite (is_many_actions_typed _ _ Ha). f_equal.
      apply many_typed_spec. split; [done|]. split.
      - by rewrite elem_of_remove_dups.
      - rewrite length_remove_dups_NoDup by done. unfold ACTION_COUNT_THRESHOLD. lia. }
    destruct (scan_statement_cases name arn (PDict m) st)
      as [[Hwild _] | [(Hwild & _ & n & Hn & ->) | Hsame]].
    + by apply (wildcard_excludes_many ACTION_COUNT_THRESHOLD) in Hwild.
    + rewrite (action_count_typed _ _ Ha Hmany) in Hn. injection Hn as <-.
      by rewrite length_remove_dups_NoDup, Hlen.
    + exfalso. revert Hsame. unfold scan_statement. rewrite run_bind. unfold lift at 1.
      assert (is_action_wildcard (PDict m) = Ok false) as ->.
      { unfold is_action_wildcard. cbn [py_get mbind result_bind].
        unfold effect_is_allow in He. rewrite He. cbn.
        rewrite (normalized_wrap _ _ Ha). cbn [py_in_str mbind result_bind].
        rewrite existsb_eq_str, bool_decide_eq_false_2; done. }
      rewrite run_bind. unfold lift at 1. rewrite Hmany.
      rewrite run_bind. unfold lift at 1.
      rewrite (action_count_typed _ _ Ha Hmany). simpl.
      intros Hst. apply (f_equal findings_many_actions) in Hst. simpl in Hst.
      apply (f_equal length) in Hst. rewrite length_app in Hst. simpl in Hst. lia.
Qed.

(** ** What the report prints *)

Lemma prints_print (o : out) : prints (print o) [o].
Proof. by intros st. Qed.

Lemma prints_ret : prints (mret ()) [].
Proof. intros [????]. unfold with_stdout. simpl. by rewrite app_nil_r. Qed.

Lemma prints_bind (c k : M unit) (a b : list out) :
  prints c a → prints k b → prints (c ;; k) (a ++ b).
Proof.
  intros Hc Hk st. rewrite run_bind, Hc, Hk.
  unfold with_stdout. simpl. by rewrite app_assoc.
Qed.

Lemma prints_for_each {A} (body : A → M unit) (lines : A → list out) (l : list A) :
  (∀ x, prints (body x) (lines x)) → prints (for_each body l) (l ≫= lines).
Proof.
  intros Hb. induction l as [|x l IH]; [apply prints_ret|].
  rewrite bind_cons. by apply prints_bind.
Qed.

Lemma fmap_as_bind {A B} (f : A → B) (l : list A) :
  f <$> l = l ≫= (λ x, [f x]).
Proof. induction l as [|x l IH]; [done|]. by rewrite fmap_cons, bind_cons, IH. Qed.

Lemma report_stdout (st : scan_state) :
  report st = (Ok (), with_stdout st (stdout st ++ report_lines st)).
Proof.
  unfold report, report_lines.
  apply (prints_bind _ _ (wildcard_section (findings_wildcard st))).
  { unfold wildcard_section. destruct (findings_wildcard st) as [|f fs];
      [apply prints_print|].
    apply (prints_bind _ _ [_]); [apply prints_print|].
    apply prints_for_each. intros x.
    repeat apply (prints_bind _ _ [_]); apply prints_print. }
  apply (prints_bind _ _ (many_section (findings_many_actions st))).
  { unfold many_section. destruct (findings_many_actions st) as [|f fs];
      [apply prints_print|].
    apply (prints_bind _ _ [_]); [apply prints_print|].
    apply prints_for_each. intros x.
    repeat apply (prints_bind _ _ [_]); apply prints_print. }
  apply prints_bind; [|apply prints_print].
  unfold issues_section. destruct (permission_issues st) as [|i issues];
    [apply prints_ret|].
  apply (prints_bind _ _ [_]); [apply prints_print|].
  rewrite (fmap_as_bind OIssue). apply prints_for_each.
  intros x. apply prints_print.
Qed.

Lemma issue_lines_of_app (a b : list out) :
  issue_lines_of (a ++ b) = issue_lines_of a ++ issue_lines_of b.
Proof. apply bind_app. Qed.

Lemma issue_lines_of_bind {A} (lines : A → list out) (l : list A) :
  (∀ x, issue_lines_of (lines x) = []) → issue_lines_of (l ≫= lines) = [].
Proof.
  intros Hl. induction l as [|x l IH]; [done|].
  by rewrite bind_cons, issue_lines_of_app, Hl, IH.
Qed.

Lemma issue_lines_of_issues (l : list string) :
  issue_lines_of (OIssue <$> l) = l.
Proof.
  induction l as [|x l IH]; [done|].
  rewrite fmap_cons. unfold issue_lines_of in *. rewrite bind_cons, IH. done.
Qed.

Lemma issue_lines_of_report (st : scan_state) :
  issue_lines_of (report_lines st) = sorted_issues (permission_issues st).
Proof.
  unfold report_lines. rewrite !issue_lines_of_app.
  assert (issue_lines_of (wildcard_section (findings_wildcard st)) = []) as ->.
  { unfold wildcard_section. destruct (findings_wildcard st) as [|f fs]; [done|].
    change (issue_lines_of ((f :: fs) ≫= wildcard_finding_lines) = []).
    by apply issue_lines_of_bind. }
  assert (issue_lines_of (many_section (findings_many_actions st)) = []) as ->.
  { unfold many_section. destruct (findings_many_actions st) as [|f fs]; [done|].
    change (issue_lines_of ((f :: fs) ≫= many_finding_lines) = []).
    by apply issue_lines_of_bind. }
  unfold issues_section. destruct (permission_issues st) as [|i issues]; [done|].
  change (issue_lines_of (OIssue <$> sorted_issues (i :: issues)) ++ [] = 
          sorted_issues (i :: issues)).
  by rewrite issue_lines_of_issues, app_nil_r.
Qed.

Lemma sorted_issues_spec (issues : list string) :
  NoDup (sorted_issues issues) ∧
  Sorted String.le (sorted_issues issues) ∧
  ∀ s, s ∈ sorted_issues issues ↔ s ∈ issues.
Proof.
  unfold sorted_issues. split; [|split].
  - rewrite merge_sort_Permutation. apply NoDup_elements.
  - apply (Sorted_merge_sort String.le).
  - intros s.
    by rewrite merge_sort_Permutation, elem_of_elements, elem_of_list_to_set.
Qed.

(** The three ways a run ends, after a scan that left the state [st]: the
    report, the listing error, or an uncaught exception. *)
Lemma main_cases (iam : iam_client) :
  let scan := scan_pages iam (list_policies iam) (print OScanning initial).2 in
  stdout scan.2 = [OScanning] ∧
  main iam initial =
  match scan.1 with
  | Ok _ => (Ok (), with_stdout scan.2 (OScanning :: report_lines scan.2))
  | Raise (ClientError _ message) =>
      (Ok (), with_stdout scan.2 [OScanning; OListError message])
  | Raise e => (Raise e, scan.2)
  end.
Proof.
  intros scan.
  assert (stdout scan.2 = [OScanning]) as Hout by apply scan_pages_stdout.
  split; [done|].
  change (main iam initial) with (scan_then iam report (print OScanning initial).2).
  unfold scan_then. fold scan. destruct scan as [[[]|e] st']; simpl in *.
  - by rewrite report_stdout, Hout.
  - destruct e; try done. unfold print, with_stdout. by rewrite Hout.
Qed.

(** C6. The permission issues are printed without duplicates and in
    increasing order: the issue lines that the report adds are the distinct
    recorded issue strings, each once, sorted; so are the issue lines of a
    run whose scan completes. *)
Theorem permission_issues_deduplicated_sorted :
  (∀ issues,
     NoDup (sorted_issues issues) ∧
     Sorted String.le (sorted_issues issues) ∧
     ∀ s, s ∈ sorted_issues issues ↔ s ∈ issues) ∧
  (∀ st,
     issue_lines_of (stdout (report st).2) =
     issue_lines_of (stdout st) ++ sorted_issues (permission_issues st)) ∧
  (∀ iam,
     (scan_pages iam (list_policies iam) initial).1 = Ok () →
     issue_lines_of (run iam).2 =
     sorted_issues (permission_issues (main iam initial).2)).
Proof.
  split; [apply sorted_issues_spec|]. split.
  - intros st. rewrite report_stdout. simpl.
    by rewrite issue_lines_of_app, issue_lines_of_report.
  - intros iam Hscan.
    rewrite (scan_pages_outcome _ _ _ (print OScanning initial).2) in Hscan.
    destruct (main_cases iam) as [_ Hmain]. cbv zeta in Hmain.
    rewrite Hscan in Hmain. unfold run. rewrite Hmain.
    cbn [snd with_stdout stdout permission_issues].
    change (OScanning :: ?l) with ([OScanning] ++ l).
    by rewrite issue_lines_of_app, issue_lines_of_report.
Qed.

(** ** A policy that cannot be read *)

Lemma scan_policy_failure (iam : iam_client) (p : policy_entry) (op code : string) :
  fetch_failure iam (Arn p) = Some (op, code) →
  ∀ st, scan_policy iam p st = append_issue (issue_line op (PolicyName p) code) st.
Proof.
  unfold fetch_failure, scan_policy, try_except. intros Hf st.
  rewrite run_bind. unfold lift at 1.
  destruct (get_policy iam (Arn p)) as [version_id|[]]; try done.
  - rewrite run_bind. unfold lift at 1.
    destruct (get_policy_version iam (Arn p) version_id) as [|[]]; try done.
    by injection Hf as <- <-.
  - by injection Hf as <- <-.
Qed.

Lemma same_findings_scan (iam : iam_client) (l : list policy_entry)
    (next : page_stream) :
  respects same_findings (for_each (scan_policy iam) l ;; scan_pages iam next).
Proof.
  assert (∀ f, respects same_findings (append_wildcard f)) as Hw.
  { intros f st1 st2 (Hwf & Hmf & Hout). split; [done|].
    split; [|done]. simpl. by rewrite Hwf. }
  assert (∀ f, respects same_findings (append_many f)) as Hm.
  { intros f st1 st2 (Hwf & Hmf & Hout). split; [done|].
    split; [done|]. split; [|done]. simpl. by rewrite Hmf. }
  assert (∀ i, respects same_findings (append_issue i)) as Hi.
  { by intros i st1 st2 (Hwf & Hmf & Hout). }
  apply respects_bind.
  - apply respects_for_each. intros p. by apply respects_scan_policy.
  - intros _. by apply respects_scan_pages.
Qed.

Lemma recorded_issue_scan (issue : string) (iam : iam_client) (l : list policy_entry)
    (next : page_stream) :
  preserves (λ st, issue ∈ permission_issues st)
    (for_each (scan_policy iam) l ;; scan_pages iam next).
Proof.
  assert (∀ i, preserves (λ st, issue ∈ permission_issues st) (append_issue i)) as Hi.
  { intros i st Hst. simpl. apply elem_of_app. by left. }
  assert (∀ name arn stmt,
    preserves (λ st, issue ∈ permission_issues st) (scan_statement name arn stmt)) as Hs.
  { intros. by apply preserves_scan_statement; intros f st Hst. }
  apply preserves_bind.
  - apply preserves_for_each. intros p. by apply preserves_scan_policy.
  - intros _. by apply preserves_scan_pages.
Qed.

(** One page, with and without the unreadable policy [p]. *)
Lemma scan_page_without (iam : iam_client) (p : policy_entry) (op code : string)
    (pre post : list policy_entry) (next : page_stream) (st : scan_state) :
  fetch_failure iam (Arn p) = Some (op, code) →
  let with_p := scan_pages iam (Page (pre ++ p :: post) next) st in
  let without := scan_pages iam (Page (pre ++ post) next) st in
  with_p.1 = without.1 ∧ same_findings with_p.2 without.2 ∧
  (with_p.1 = Ok () →
   issue_line op (PolicyName p) code ∈ permission_issues with_p.2).
Proof.
  intros Hf. cbn [scan_pages]. rewrite !run_bind, !run_for_each_app.
  destruct (for_each (scan_policy iam) pre st) as [[[]|e] st1]; [|done].
  rewrite run_for_each_cons, (scan_policy_failure _ _ _ _ Hf).
  set (issue := issue_line op (PolicyName p) code).
  set (st1' := (append_issue issue st1).2).
  change (append_issue issue st1) with (Ok (), st1').
  rewrite <-!run_bind.
  destruct (same_findings_scan iam post next st1' st1) as [Hr Hs]; [done|].
  split; [done|]. split; [done|]. intros _.
  apply (recorded_issue_scan issue iam post next st1').
  simpl. apply elem_of_app. right. by left.
Qed.

Lemma scan_pages_without (iam : iam_client) (p : policy_entry) (op code : string)
    (earlier : list (list policy_entry)) (pre post : list policy_entry)
    (next : page_stream) (st : scan_state) :
  fetch_failure iam (Arn p) = Some (op, code) →
  let with_p := scan_pages iam (pages_then earlier (Page (pre ++ p :: post) next)) st in
  let without := scan_pages iam (pages_then earlier (Page (pre ++ post) next)) st in
  with_p.1 = without.1 ∧ same_findings with_p.2 without.2 ∧
  (with_p.1 = Ok () →
   issue_line op (PolicyName p) code ∈ permission_issues with_p.2).
Proof.
  intros Hf. cbv zeta.
  rewrite (scan_pages_pages_then _ _ (Page (pre ++ p :: post) next)),
    (scan_pages_pages_then _ _ (Page (pre ++ post) next)).
  destruct (scan_pages iam (pages_then earlier NoMorePages) st) as [[[]|e] st1];
    [|done].
  by apply scan_page_without.
Qed.

Lemma scan_pages_with_listing (iam : iam_client) (listing pages : page_stream) :
  scan_pages (with_listing iam listing) pages = scan_pages iam pages.
Proof.
  induction pages as [|policies next IH|code message]; [done| |done].
  cbn [scan_pages]. rewrite IH. reflexivity.
Qed.

Lemma run_with_listing (iam : iam_client) (pages : page_stream) :
  let scan := scan_pages iam pages (print OScanning initial).2 in
  run (with_listing iam pages) =
  match scan.1 with
  | Ok _ => (Ok (), OScanning :: report_lines scan.2)
  | Raise (ClientError _ message) => (Ok (), [OScanning; OListError message])
  | Raise e => (Raise e, [OScanning])
  end.
Proof.
  destruct (main_cases (with_listing iam pages)) as [Hout Hmain].
  cbv zeta in *. unfold run. rewrite Hmain.
  change (list_policies (with_listing iam pages)) with pages in *.
  rewrite scan_pages_with_listing in *.
  destruct (scan_pages iam pages (print OScanning initial).2) as [[[]|e] st'];
    [done|]. simpl in *. destruct e; by rewrite ?Hout.
Qed.

Lemma findings_part_app (a b : list out) :
  findings_part (a ++ b) = findings_part a ++ findings_part b.
Proof. apply List.filter_app. Qed.

Lemma findings_part_issues (issues : list string) :
  findings_part (issues_section issues) = [].
Proof.
  unfold issues_section. destruct issues as [|i issues]; [done|].
  generalize (sorted_issues (i :: issues)). intros l. simpl.
  induction l as [|x l IH]; done.
Qed.

Lemma findings_part_report (st1 st2 : scan_state) :
  same_findings st1 st2 →
  findings_part (report_lines st1) = findings_part (report_lines st2).
Proof.
  intros (Hw & Hm & _). unfold report_lines.
  by rewrite !findings_part_app, !findings_part_issues, Hw, Hm.
Qed.

(** C5. When [get_policy] or [get_policy_version] fails with a client error
    on a policy, the scan of that policy records one permission issue, which
    names the operation and the policy, adds no finding and raises nothing.
    The run with that policy in the listing ends as the run without it and
    prints the same findings; when its scan completes, the issue is among
    the issue lines printed. *)
Theorem fetch_failure_is_local (iam : iam_client) (p : policy_entry) (op code : string) :
  fetch_failure iam (Arn p) = Some (op, code) →
  (∀ st, scan_policy iam p st =
         append_issue ("iam:" +:+ op +:+ " on " +:+ PolicyName p +:+ " — " +:+ code) st) ∧
  (∀ earlier pre post next,
     let with_p := run (with_listing iam
                          (pages_then earlier (Page (pre ++ p :: post) next))) in
     let without := run (with_listing iam
                           (pages_then earlier (Page (pre ++ post) next))) in
     with_p.1 = without.1 ∧
     findings_part with_p.2 = findings_part without.2 ∧
     ((scan_pages iam (pages_then earlier (Page (pre ++ p :: post) next)) initial).1
        = Ok () →
      issue_line op (PolicyName p) code ∈ issue_lines_of with_p.2)).
Proof.
  intros Hf. split; [by apply scan_policy_failure|].
  intros earlier pre post next. cbv zeta. rewrite !run_with_listing. cbv zeta.
  set (st0 := (print OScanning initial).2).
  rewrite (scan_pages_outcome _ _ initial st0).
  destruct (scan_pages_without iam p op code earlier pre post next st0 Hf)
    as (Hr & Hs & Hi).
  destruct (scan_pages iam (pages_then earlier (Page (pre ++ p :: post) next)) st0)
    as [r1 st1].
  destruct (scan_pages iam (pages_then earlier (Page (pre ++ post) next)) st0)
    as [r2 st2].
  simpl in Hr, Hs, Hi. subst r2. destruct r1 as [[]|e]; cbn [fst snd].
  - split; [done|]. split.
    + change (OScanning :: findings_part (report_lines st1) =
              OScanning :: findings_part (report_lines st2)).
      f_equal. by apply findings_part_report.
    + intros _.
      change (OScanning :: report_lines st1) with ([OScanning] ++ report_lines st1).
      rewrite issue_lines_of_app, issue_lines_of_report.
      apply sorted_issues_spec. by apply Hi.
  - by destruct e.
Qed.

(** ** The theorems at sample inputs *)

Lemma is_action_wildcard_contract_witness :
  is_action_wildcard (PDict allow_all_on_account) = Ok true
  ↔ wildcard_contract allow_all_on_account ["iam:PassRole"; "*"]
      ["arn:aws:s3:::logs"; "arn:aws:iam::123456789012:*"].
Proof.
  apply (is_action_wildcard_contract allow_all_on_account ["iam:PassRole"; "*"]
           ["arn:aws:s3:::logs"; "arn:aws:iam::123456789012:*"]).
  - reflexivity.
  - reflexivity.
  - left. reflexivity.
Defined.

Lemma is_many_actions_contract_witness :
  is_many_actions (PDict (with_actions twenty_actions)) = Ok true
  ↔ many_contract 20 (with_actions twenty_actions) twenty_actions.
Proof.
  apply (is_many_actions_contract (with_actions twenty_actions) twenty_actions).
  vm_compute. reflexivity.
Defined.

Lemma listing_failure_aborts_witness :
  run refused_account =
  (Ok (), [OScanning; OListError "not authorized to perform iam:ListPolicies"]).
Proof.
  apply (listing_failure_aborts refused_account [[admin_policy; locked_policy]]
           "AccessDenied").
  - reflexivity.
  - vm_compute. reflexivity.
Defined.

Lemma fetch_failure_is_local_witness :
  scan_policy sample_account locked_policy initial =
  append_issue "iam:GetPolicyVersion on Locked — AccessDenied" initial.
Proof.
  apply (fetch_failure_is_local sample_account locked_policy
           "GetPolicyVersion" "AccessDenied").
  vm_compute. reflexivity.
Defined.

Lemma absent_resource_defaults_to_star_witness :
  is_action_wildcard (PDict allow_all_no_resource) = Ok true.
Proof.
  apply (absent_resource_defaults_to_star allow_all_no_resource ["*"]).
  - reflexivity.
  - reflexivity.
  - left.
  - reflexivity.
  - left. reflexivity.
Defined.

Lemma classifiers_false_on_missing_keys_witness :
  is_action_wildcard (PDict no_effect) = Ok false ∧
  is_many_actions (PDict no_effect) = Ok false.
Proof.
  apply (classifiers_false_on_missing_keys no_effect). left. reflexivity.
Defined.

Lemma many_actions_has_action_key_witness :
  ∃ n, action_count (PDict (with_actions twenty_actions)) = Ok n.
Proof.
  apply (many_actions_has_action_key 20 (PDict (with_actions twenty_actions))).
  - vm_compute. repeat constructor.
  - vm_compute. reflexivity.
Defined.

Lemma classifiers_mutually_exclusive_witness :
  PDict allow_all ≠ PDict (with_actions twenty_actions) ∧
  scan_statement "Admin" "arn:aws:iam::123456789012:policy/Admin"
    (PDict allow_all_unhashable) initial =
  append_wildcard
    {| wf_PolicyName := "Admin";
       wf_PolicyArn := "arn:aws:iam::123456789012:policy/Admin";
       wf_Statement := PDict allow_all_unhashable |} initial.
Proof.
  split.
  - apply (proj1 (proj2 (proj2 (proj2 classifiers_mutually_exclusive))) sample_account
             {| wf_PolicyName := PolicyName admin_policy; wf_PolicyArn := Arn admin_policy;
                wf_Statement := PDict allow_all |}
             {| mf_PolicyName := PolicyName broad_policy; mf_PolicyArn := Arn broad_policy;
                mf_Statement := PDict (with_actions twenty_actions);
                mf_ActionCount := 20 |}).
    + vm_compute. left.
    + vm_compute. left.
  - apply (proj1 (proj2 (proj2 (proj2 (proj2 classifiers_mutually_exclusive))))).
    vm_compute. reflexivity.
Defined.

Lemma many_finding_action_count_witness :
  20 = length (remove_dups twenty_actions).
Proof.
  apply (proj1 many_finding_action_count sample_account
           {| mf_PolicyName := PolicyName broad_policy; mf_PolicyArn := Arn broad_policy;
              mf_Statement := PDict (with_actions twenty_actions);
              mf_ActionCount := 20 |}
           (with_actions twenty_actions) twenty_actions).
  - vm_compute. left.
  - reflexivity.
  - vm_compute. reflexivity.
Defined.

Lemma permission_issues_deduplicated_sorted_witness :
  issue_lines_of (run sample_account).2 =
  sorted_issues (permission_issues (main sample_account initial).2).
Proof.
  apply (proj2 (proj2 permission_issues_deduplicated_sorted) sample_account).
  vm_compute. reflexivity.
Defined.

(** ** Sample runs *)

(** A [Deny] statement is accepted by neither classifier. *)
Example deny_is_never_reported :
  is_action_wildcard (PDict deny_all) = Ok false ∧
  is_many_actions (PDict deny_all) = Ok false.
Proof. by vm_compute. Qed.

Example nineteen_actions_are_not_many :
  is_many_actions (PDict (with_actions (take 19 twenty_actions))) = Ok false.
Proof. by vm_compute. Qed.

Example repeated_actions_count_once :
  length (twenty_actions ++ take 5 twenty_actions) = 25 ∧
  is_many_actions
    (PDict (with_actions (take 15 twenty_actions ++ take 10 twenty_actions))) = Ok false.
Proof. by vm_compute. Qed.

(** Three policies, the second unreadable: one finding of each kind, and one
    permission issue. *)
Example run_sample_account :
  run sample_account =
  (Ok (),
   [OScanning;
    OWildcardHeader 1;
    OPolicy "Admin"; OArn "arn:aws:iam::123456789012:policy/Admin";
    OStatement (PDict allow_all);
    OManyHeader 1 20;
    OPolicyCount "Broad" 20; OArn "arn:aws:iam::123456789012:policy/Broad";
    OStatement (PDict (with_actions twenty_actions));
    OIssuesHeader;
    OIssue "iam:GetPolicyVersion on Locked — AccessDenied";
    OComplete]).
Proof. by vm_compute. Qed.

Example repeated_issues_print_once :
  sorted_issues ["iam:GetPolicy on B — AccessDenied";
                 "iam:GetPolicy on A — AccessDenied";
                 "iam:GetPolicy on B — AccessDenied"]
  = ["iam:GetPolicy on A — AccessDenied"; "iam:GetPolicy on B — AccessDenied"].
Proof. by vm_compute. Qed.

(** Outside the data model the two counts can differ: [ActionCount] is 1 for
    an [Action] that is a mapping, however many keys it has. *)
Example action_count_of_a_mapping :
  let stmt := PDict (list_to_map
    [("Effect", PStr "Allow");
     ("Action", PDict (list_to_map ((λ a, (a, PNone)) <$> twenty_actions)))]) in
  is_many_actions stmt = Ok true ∧ action_count stmt = Ok 1.
Proof. by vm_compute. Qed.

(** ** Statements that are not reported *)

Lemma py_ne_str_allow (m : gmap string pyval) :
  m !! "Effect" ≠ Some (PStr "Allow") →
  py_ne_str (default PNone (m !! "Effect")) "Allow" = true.
Proof.
  intros Hne. unfold py_ne_str. apply negb_true_iff.
  destruct (py_eq_str _ "Allow") eqn:He; [|done].
  by apply effect_allow_spec in He.
Qed.

(** X1. A statement whose effect is not the string [Allow] ([Deny], any
    other value, or no [Effect] key) is accepted by neither classifier,
    whatever its other fields hold, well formed or not. *)
Theorem non_allow_never_reported (m : gmap string pyval) :
  m !! "Effect" ≠ Some (PStr "Allow") →
  is_action_wildcard (PDict m) = Ok false ∧
  ∀ threshold, is_many_actions_with threshold (PDict m) = Ok false.
Proof.
  intros Hne%py_ne_str_allow. split; [|intros threshold].
  - unfold is_action_wildcard. cbn [py_get mbind result_bind]. by rewrite Hne.
  - unfold is_many_actions_with. cbn [py_get mbind result_bind]. by rewrite Hne.
Qed.

(** X2. The many-actions classifier reads [Effect] and [Action] only: two
    statements that agree on these two keys are classified alike, so a
    [Condition] or a narrow [Resource] never exempts a statement. *)
Theorem is_many_actions_reads_effect_and_action (threshold : nat)
    (m1 m2 : gmap string pyval) :
  m1 !! "Effect" = m2 !! "Effect" →
  m1 !! "Action" = m2 !! "Action" →
  is_many_actions_with threshold (PDict m1) = is_many_actions_with threshold (PDict m2).
Proof.
  intros He Ha. unfold is_many_actions_with. cbn [py_get mbind result_bind].
  by rewrite He, Ha.
Qed.

(** X3. Lowering the threshold never loses a many-actions finding. *)
Theorem is_many_actions_threshold_mono (t t' : nat) (stmt : pyval) :
  t' ≤ t →
  is_many_actions_with t stmt = Ok true →
  is_many_actions_with t' stmt = Ok true.
Proof.
  intros Hle. destruct stmt as [| | | | |d]; try done.
  unfold is_many_actions_with. cbn [py_get mbind result_bind].
  destruct (py_ne_str _ "Allow"); [done|].
  destruct (py_set _) as [s|]; [|done]. cbn [mbind result_bind].
  destruct (bool_decide (HStr "*" ∈ elements s)); [done|].
  intros [= Ht%bool_decide_eq_true]. f_equal. apply bool_decide_eq_true. lia.
Qed.

(** X4. A field that is a single string counts as the list of that one
    string: for [Action] in both classifiers, for [Resource] in the wildcard
    classifier. *)
Theorem single_string_is_singleton_list (m : gmap string pyval) (s : string) :
  is_action_wildcard (PDict (<["Action" := PStr s]> m))
    = is_action_wildcard (PDict (<["Action" := PList [PStr s]]> m)) ∧
  is_action_wildcard (PDict (<["Resource" := PStr s]> m))
    = is_action_wildcard (PDict (<["Resource" := PList [PStr s]]> m)) ∧
  ∀ threshold,
    is_many_actions_with threshold (PDict (<["Action" := PStr s]> m))
    = is_many_actions_with threshold (PDict (<["Action" := PList [PStr s]]> m)).
Proof.
  unfold is_action_wildcard, is_many_actions_with.
  cbn [py_get mbind result_bind].
  split; [|split; [|intros threshold]].
  - rewrite !lookup_insert_eq. by rewrite !lookup_insert_ne by done.
  - rewrite !lookup_insert_eq. by rewrite !lookup_insert_ne by done.
  - rewrite !lookup_insert_eq. by rewrite !lookup_insert_ne by done.
Qed.

(** X5. An [Action] that is present but is [null], a boolean or a number
    makes both classifiers raise [TypeError] on an [Allow] statement. *)
Theorem scalar_action_raises (m : gmap string pyval) (a : pyval) :
  effect_is_allow m →
  m !! "Action" = Some a →
  is_scalar a = true →
  is_action_wildcard (PDict m) = Raise TypeError ∧
  ∀ threshold, is_many_actions_with threshold (PDict m) = Raise TypeError.
Proof.
  unfold effect_is_allow. intros He Ha Hs.
  unfold is_action_wildcard, is_many_actions_with.
  cbn [py_get mbind result_bind]. rewrite He, Ha.
  by destruct a.
Qed.

Lemma length_remove_dups_same_elements `{EqDecision A} (l k : list A) :
  (∀ x, x ∈ l ↔ x ∈ k) → length (remove_dups l) = length (remove_dups k).
Proof.
  intros Hlk. apply Permutation_length, NoDup_Permutation;
    [apply NoDup_remove_dups..|].
  intros x. by rewrite !elem_of_remove_dups.
Qed.

(** X6. The many-actions classifier sees the actions as a set: statements
    with the same effect whose action lists have the same elements, in any
    order and with any repetition, are classified alike. *)
Theorem is_many_actions_order_and_repetition (threshold : nat)
    (m1 m2 : gmap string pyval) (acts1 acts2 : list string) :
  m1 !! "Effect" = m2 !! "Effect" →
  actions_of m1 = Some acts1 →
  actions_of m2 = Some acts2 →
  (∀ a, a ∈ acts1 ↔ a ∈ acts2) →
  is_many_actions_with threshold (PDict m1) = is_many_actions_with threshold (PDict m2).
Proof.
  intros He Ha1 Ha2 Hsame.
  rewrite (is_many_actions_typed _ _ Ha1), (is_many_actions_typed _ _ Ha2), He.
  rewrite (length_remove_dups_same_elements acts1 acts2 Hsame).
  by rewrite (bool_decide_ext _ _ (Hsame "*")).
Qed.

Lemma truthy_false (c : pyval) : truthy c = false ↔ c ∈ falsy_values.
Proof.
  unfold falsy_values. split.
  - destruct c as [|b|z|s|l|d]; simpl.
    + intros _. by left.
    + intros ->. right. by left.
    + intros Hz%bool_decide_eq_false. destruct (decide (z = 0%Z)) as [->|]; [|done].
      do 2 right. by left.
    + intros Hs%bool_decide_eq_false. destruct (decide (s = "")) as [->|]; [|done].
      do 3 right. by left.
    + intros Hl%bool_decide_eq_false. destruct l; [|by destruct Hl].
      do 4 right. by left.
    + intros Hd%bool_decide_eq_false. destruct (decide (d = ∅)) as [->|]; [|done].
      do 5 right. by left.
  - rewrite !elem_of_cons, elem_of_nil. by intros [->|[->|[->|[->|[->|[->|[]]]]]]].
Qed.

(** X7. The wildcard classifier tests the truth value of [Condition]: on a
    statement that allows ["*"] on a wildcard resource, a [Condition] that
    is [null], [false], [0], the empty string, the empty list or the empty
    mapping counts as no condition; every other value, mapping or not,
    makes the classifier return false. *)
Theorem falsy_condition_is_no_condition (m : gmap string pyval)
    (acts ress : list string) (c : pyval) :
  effect_is_allow m →
  actions_of m = Some acts → "*" ∈ acts →
  resources_of m = Some ress →
  "*" ∈ ress ∨ (∃ r, r ∈ ress ∧ has_substring ":*" r) →
  m !! "Condition" = Some c →
  (c ∈ falsy_values → is_action_wildcard (PDict m) = Ok true) ∧
  (c ∉ falsy_values → is_action_wildcard (PDict m) = Ok false).
Proof.
  intros He%effect_allow_spec Ha Hstar Hr Hres Hc.
  rewrite (is_action_wildcard_typed _ _ _ Ha Hr), He, Hc.
  rewrite (bool_decide_eq_true_2 _ Hstar). cbn [andb from_option id].
  assert (bool_decide ("*" ∈ ress) || existsb (str_contains ":*") ress = true) as ->.
  { apply orb_true_iff. destruct Hres as [?|?]; [left | right].
    - by apply bool_decide_eq_true.
    - by apply existsb_has_substring. }
  cbn [andb]. split.
  - intros Hf%truthy_false. by rewrite Hf.
  - intros Hf. destruct (truthy c) eqn:Ht; [done|]. by apply truthy_false in Ht.
Qed.

(** X8. A literal ["*"] among the resources settles the resource test
    before any other entry is looked at: the other entries may be anything,
    also values in which [":*" in r] would raise. *)
Theorem star_resource_short_circuits (m : gmap string pyval) (acts : list string)
    (l : list pyval) :
  effect_is_allow m →
  actions_of m = Some acts → "*" ∈ acts →
  m !! "Resource" = Some (PList l) →
  PStr "*" ∈ l →
  is_action_wildcard (PDict m) =
  Ok (negb (truthy (default (PDict ∅) (m !! "Condition")))).
Proof.
  intros He%effect_allow_spec Ha Hstar Hr Hl.
  unfold is_action_wildcard, py_ne_str. cbn [py_get mbind result_bind].
  rewrite He. cbn [negb]. rewrite (normalized_wrap _ _ Ha).
  cbn [py_in_str mbind result_bind].
  rewrite existsb_eq_str, (bool_decide_eq_true_2 _ Hstar). cbn [negb].
  rewrite Hr. cbn [from_option id isinstance_str py_in_str mbind result_bind].
  assert (existsb (λ x, py_eq_str x "*") l = true) as ->; [|done].
  apply existsb_exists. exists (PStr "*"). split; [by apply list_elem_of_In | done].
Qed.

(** X9. The printed permission issues depend only on which issues were
    recorded, not on the order of the scan or on how often an issue
    recurred. *)
Theorem sorted_issues_same_elements (issues1 issues2 : list string) :
  (∀ i, i ∈ issues1 ↔ i ∈ issues2) →
  sorted_issues issues1 = sorted_issues issues2.
Proof.
  intros Hsame. unfold sorted_issues.
  assert (list_to_set issues1 =@{gset string} list_to_set issues2) as ->; [|done].
  apply set_eq. intros i. by rewrite !elem_of_list_to_set.
Qed.

(** X10. A failure of [get_policy] and a failure of [get_policy_version]
    never give the same issue line, so the deduplication keeps them
    apart. *)
Theorem issue_lines_keep_operations_apart (name1 code1 name2 code2 : string) :
  issue_line "GetPolicy" name1 code1 ≠ issue_line "GetPolicyVersion" name2 code2.
Proof.
  unfold issue_line. cbv [String.append]. fold String.append. discriminate.
Qed.

(** ** Exceptions of the classifiers in the driver *)

Lemma rnce_ok {A} (a : A) : raises_no_client_error (Ok a).
Proof. by intros e. Qed.

Lemma rnce_bind {A B} (r : result A) (f : A → result B) :
  raises_no_client_error r → (∀ a, raises_no_client_error (f a)) →
  raises_no_client_error (r ≫= f).
Proof.
  intros Hr Hf e. destruct r as [a|e']; cbn [mbind result_bind].
  - apply Hf.
  - intros [= <-]. by apply Hr.
Qed.

Lemma rnce_py_get (o : pyval) (k : string) (d : pyval) :
  raises_no_client_error (py_get o k d).
Proof. intros e. destruct o; simpl; by intros [= <-]. Qed.

Lemma rnce_py_getitem (o : pyval) (k : string) :
  raises_no_client_error (py_getitem o k).
Proof.
  intros e. destruct o as [| | | | |d]; simpl; try by intros [= <-].
  destruct (d !! k); simpl; by intros [= <-].
Qed.

Lemma rnce_py_in_str (s : string) (v : pyval) :
  raises_no_client_error (py_in_str s v).
Proof. intros e. destruct v; simpl; by intros [= <-]. Qed.

Lemma rnce_py_iter (v : pyval) : raises_no_client_error (py_iter v).
Proof. intros e. destruct v; simpl; by intros [= <-]. Qed.

Lemma rnce_py_any (f : pyval → result bool) (l : list pyval) :
  (∀ x, raises_no_client_error (f x)) → raises_no_client_error (py_any f l).
Proof.
  intros Hf. induction l as [|x l IH]; [apply rnce_ok|].
  cbn [py_any]. apply rnce_bind; [done|]. intros [|]; [apply rnce_ok | done].
Qed.

Lemma rnce_py_set (v : pyval) : raises_no_client_error (py_set v).
Proof.
  unfold py_set. apply rnce_bind; [apply rnce_py_iter|]. intros l.
  apply rnce_bind; [|intros ks; apply rnce_ok].
  induction l as [|x l IH]; [apply rnce_ok|]. cbn [hash_all].
  apply rnce_bind.
  - intros e. destruct x; simpl; by intros [= <-].
  - intros k. apply rnce_bind; [done|]. intros ks. apply rnce_ok.
Qed.

Lemma rnce_is_action_wildcard (stmt : pyval) :
  raises_no_client_error (is_action_wildcard stmt).
Proof.
  unfold is_action_wildcard.
  apply rnce_bind; [apply rnce_py_get|]. intros effect.
  destruct (py_ne_str effect "Allow"); [apply rnce_ok|].
  apply rnce_bind; [apply rnce_py_get|]. intros actions. cbv zeta.
  apply rnce_bind; [apply rnce_py_in_str|]. intros found.
  destruct (negb found); [apply rnce_ok|].
  apply rnce_bind; [apply rnce_py_get|]. intros resources.
  apply rnce_bind; [apply rnce_py_get|]. intros condition.
  apply rnce_bind; [apply rnce_py_in_str|]. intros star.
  apply rnce_bind.
  - destruct star; [apply rnce_ok|].
    apply rnce_bind; [apply rnce_py_iter|]. intros rs.
    apply rnce_py_any. intros x. apply rnce_py_in_str.
  - intros [|]; apply rnce_ok.
Qed.

Lemma rnce_is_many_actions (threshold : nat) (stmt : pyval) :
  raises_no_client_error (is_many_actions_with threshold stmt).
Proof.
  unfold is_many_actions_with.
  apply rnce_bind; [apply rnce_py_get|]. intros effect.
  destruct (py_ne_str effect "Allow"); [apply rnce_ok|].
  apply rnce_bind; [apply rnce_py_get|]. intros actions. cbv zeta.
  apply rnce_bind; [apply rnce_py_set|]. intros s.
  destruct (bool_decide _); apply rnce_ok.
Qed.

Lemma rnce_action_count (stmt : pyval) :
  raises_no_client_error (action_count stmt).
Proof.
  unfold action_count.
  apply rnce_bind; [apply rnce_py_getitem|]. intros a.
  destruct (isinstance_list a); [|apply rnce_ok].
  apply rnce_bind; [apply rnce_py_getitem|]. intros a'.
  apply rnce_bind; [apply rnce_py_set|]. intros s. apply rnce_ok.
Qed.

Lemma contains_lift_bind {A B} (r : result A) (k : A → M B) :
  raises_no_client_error r → (∀ a, contains_client_errors (k a)) →
  contains_client_errors (lift r ≫= k).
Proof.
  intros Hr Hk st e. rewrite run_bind. unfold lift.
  destruct r as [a|e']; [apply Hk|]. simpl. intros [= <-]. by apply Hr.
Qed.

Lemma contains_scan_statement (name arn : string) (stmt : pyval) :
  contains_client_errors (scan_statement name arn stmt).
Proof.
  unfold scan_statement.
  apply contains_lift_bind; [apply rnce_is_action_wildcard|].
  intros [|]; [by intros st e|].
  apply contains_lift_bind; [apply rnce_is_many_actions|].
  intros [|]; [|by intros st e].
  apply contains_lift_bind; [apply rnce_action_count|]. by intros n st e.
Qed.

Lemma try_except_transparent (body : M unit) (handler : string → string → M unit)
    (st : scan_state) :
  (∀ e, (body st).1 = Raise e → is_client_error e = false) →
  try_except body handler st = body st.
Proof.
  intros Hb. unfold try_except. specialize (Hb).
  destruct (body st) as [[[]|e] st'] eqn:Hbody; [done|].
  specialize (Hb e eq_refl). by destruct e.
Qed.

(** The scan of a policy whose version and document can be read is the scan
    of the statements of the document. *)
Lemma scan_policy_statements (iam : iam_client) (p : policy_entry)
    (version_id : string) (doc : gmap string pyval) (stmts : list pyval)
    (st : scan_state) :
  get_policy iam (Arn p) = Ok version_id →
  get_policy_version iam (Arn p) version_id = Ok (PDict doc) →
  py_iter (let statements := default (PList []) (doc !! "Statement") in
           if isinstance_dict statements then PList [statements] else statements)
    = Ok stmts →
  scan_policy iam p st = for_each (scan_statement (PolicyName p) (Arn p)) stmts st.
Proof.
  intros Hv Hd Hs. cbv zeta in Hs.
  pose proof (contains_for_each _ stmts
    (contains_scan_statement (PolicyName p) (Arn p)) st) as Hno.
  unfold scan_policy. cbv zeta.
  rewrite try_except_transparent.
  - rewrite run_bind, Hv. unfold lift at 1. rewrite try_except_transparent.
    + rewrite run_bind, Hd. unfold lift at 1. rewrite run_bind. unfold lift at 1.
      cbn [py_get]. rewrite run_bind, Hs. done.
    + rewrite run_bind, Hd. unfold lift at 1. rewrite run_bind. unfold lift at 1.
      cbn [py_get]. rewrite run_bind, Hs. done.
  - rewrite run_bind, Hv. unfold lift at 1. rewrite try_except_transparent.
    + rewrite run_bind, Hd. unfold lift at 1. rewrite run_bind. unfold lift at 1.
      cbn [py_get]. rewrite run_bind, Hs. done.
    + rewrite run_bind, Hd. unfold lift at 1. rewrite run_bind. unfold lift at 1.
      cbn [py_get]. rewrite run_bind, Hs. done.
Qed.

Lemma for_each_singleton {A} (body : A → M unit) (x : A) (st : scan_state) :
  for_each body [x] st = body x st.
Proof.
  cbn [for_each]. rewrite run_bind. by destruct (body x st) as [[[]|e] st'].
Qed.

Lemma scan_policy_readable (iam : iam_client) (p : policy_entry)
    (version_id : string) (doc : gmap string pyval) (st : scan_state) :
  get_policy iam (Arn p) = Ok version_id →
  get_policy_version iam (Arn p) version_id = Ok (PDict doc) →
  scan_policy iam p st =
  match py_iter (let statements := default (PList []) (doc !! "Statement") in
                 if isinstance_dict statements then PList [statements] else statements)
  with
  | Ok stmts => for_each (scan_statement (PolicyName p) (Arn p)) stmts st
  | Raise e => (Raise e, st)
  end.
Proof.
  intros Hv Hd.
  destruct (py_iter _) as [stmts|e] eqn:Hs; [by eapply scan_policy_statements|].
  pose proof (rnce_py_iter _ _ Hs) as He. cbv zeta in Hs.
  unfold scan_policy. cbv zeta.
  assert (∀ handler, try_except
    (document ← lift (get_policy_version iam (Arn p) version_id);
     statements ← lift (py_get document "Statement" (PList []));
     stmts ← lift (py_iter (if isinstance_dict statements
                            then PList [statements] else statements));
     for_each (scan_statement (PolicyName p) (Arn p)) stmts) handler st
    = (Raise e, st)) as Hinner.
  { intros handler. unfold try_except.
    rewrite run_bind, Hd. unfold lift at 1. rewrite run_bind. unfold lift at 1.
    cbn [py_get]. rewrite run_bind, Hs. unfold lift. by destruct e. }
  unfold try_except at 1. rewrite run_bind, Hv. unfold lift at 1.
  rewrite Hinner. by destruct e.
Qed.

(** X11. For a policy whose version and document can be read, a [Statement]
    that is a bare mapping is scanned as the one statement it is, a list
    statement by statement, and a missing [Statement] key changes nothing;
    a [Statement] that is [null], a boolean or a number makes the scan of
    the policy raise [TypeError], which is not recorded as a permission
    issue. *)
Theorem readable_policy_statement_shapes (iam : iam_client) (p : policy_entry)
    (version_id : string) (doc : gmap string pyval) (st : scan_state) :
  get_policy iam (Arn p) = Ok version_id →
  get_policy_version iam (Arn p) version_id = Ok (PDict doc) →
  (doc !! "Statement" = None → scan_policy iam p st = (Ok (), st)) ∧
  (∀ m, doc !! "Statement" = Some (PDict m) →
     scan_policy iam p st = scan_statement (PolicyName p) (Arn p) (PDict m) st) ∧
  (∀ l, doc !! "Statement" = Some (PList l) →
     scan_policy iam p st = for_each (scan_statement (PolicyName p) (Arn p)) l st) ∧
  (∀ s, doc !! "Statement" = Some s → is_scalar s = true →
     scan_policy iam p st = (Raise TypeError, st)).
Proof.
  intros Hv Hd. rewrite (scan_policy_readable _ _ _ _ _ Hv Hd). cbv zeta.
  split; [|split; [|split]].
  - by intros ->.
  - intros m ->. cbn [from_option id isinstance_dict py_iter].
    apply for_each_singleton.
  - by intros l ->.
  - intros s -> Hs. by destruct s.
Qed.

Lemma add_findings_nil (st : scan_state) : add_findings st [] [] = st.
Proof. destruct st. unfold add_findings. simpl. by rewrite !app_nil_r. Qed.

Lemma add_findings_add (st : scan_state) (ws1 ws2 : list wildcard_finding)
    (ms1 ms2 : list many_finding) :
  add_findings (add_findings st ws1 ms1) ws2 ms2
  = add_findings st (ws1 ++ ws2) (ms1 ++ ms2).
Proof. unfold add_findings. simpl. by rewrite !app_assoc. Qed.

Lemma scan_statement_typed (name arn : string) (m : gmap string pyval)
    (st : scan_state) :
  typed_statement m →
  scan_statement name arn (PDict m) st =
  (Ok (), add_findings st (wildcard_findings_of name arn [m])
                          (many_findings_of name arn [m])).
Proof.
  intros [[acts Ha] [ress Hr]].
  assert (∃ bw, is_action_wildcard (PDict m) = Ok bw) as [bw Hw]
    by (eexists; apply (is_action_wildcard_typed _ _ _ Ha Hr)).
  assert (∃ bm, is_many_actions (PDict m) = Ok bm) as [bm Hm]
    by (eexists; apply (is_many_actions_typed _ _ Ha)).
  unfold wildcard_findings_of, many_findings_of. cbn [List.filter].
  unfold scan_statement. rewrite run_bind. unfold lift at 1. rewrite Hw.
  destruct bw; cbn [accepted].
  - assert (bm = false) as ->.
    { destruct bm; [|done]. exfalso.
      by apply (wildcard_excludes_many ACTION_COUNT_THRESHOLD (PDict m) Hw). }
    rewrite Hm. unfold append_wildcard, add_findings. cbn [accepted fmap list_fmap].
    by rewrite app_nil_r.
  - rewrite run_bind. unfold lift at 1. rewrite Hm. destruct bm; cbn [accepted].
    + rewrite run_bind. unfold lift at 1. rewrite (action_count_typed _ _ Ha Hm).
      unfold append_many, add_findings. cbn [fmap list_fmap].
      by rewrite Ha, app_nil_r.
    + cbn [fmap list_fmap]. rewrite add_findings_nil. done.
Qed.

Lemma findings_of_cons (name arn : string) (m : gmap string pyval)
    (ms : list (gmap string pyval)) :
  wildcard_findings_of name arn (m :: ms)
    = wildcard_findings_of name arn [m] ++ wildcard_findings_of name arn ms ∧
  many_findings_of name arn (m :: ms)
    = many_findings_of name arn [m] ++ many_findings_of name arn ms.
Proof.
  unfold wildcard_findings_of, many_findings_of. cbn [List.filter].
  split.
  - by destruct (accepted (is_action_wildcard (PDict m))).
  - by destruct (accepted (is_many_actions (PDict m))).
Qed.

Lemma scan_statements_typed (name arn : string) (ms : list (gmap string pyval))
    (st : scan_state) :
  Forall typed_statement ms →
  for_each (scan_statement name arn) (PDict <$> ms) st =
  (Ok (), add_findings st (wildcard_findings_of name arn ms)
                          (many_findings_of name arn ms)).
Proof.
  intros Hms. revert st. induction Hms as [|m ms Hm _ IH]; intros st.
  { by rewrite add_findings_nil. }
  rewrite fmap_cons, run_for_each_cons, (scan_statement_typed _ _ _ _ Hm), IH.
  destruct (findings_of_cons name arn m ms) as [-> ->].
  by rewrite add_findings_add.
Qed.

(** X12. A readable policy whose document lists statements of the data
    model is scanned without an exception and without a permission issue:
    the scan adds a wildcard finding for every statement the wildcard
    classifier accepts and a many-actions finding, with the number of
    distinct actions, for every statement the many-actions classifier
    accepts, each under the name and ARN of the policy and in the order of
    the statements. *)
Theorem typed_document_findings (iam : iam_client) (p : policy_entry)
    (version_id : string) (doc : gmap string pyval) (ms : list (gmap string pyval))
    (st : scan_state) :
  get_policy iam (Arn p) = Ok version_id →
  get_policy_version iam (Arn p) version_id = Ok (PDict doc) →
  doc !! "Statement" = Some (PList (PDict <$> ms)) →
  Forall typed_statement ms →
  scan_policy iam p st =
  (Ok (), add_findings st (wildcard_findings_of (PolicyName p) (Arn p) ms)
                          (many_findings_of (PolicyName p) (Arn p) ms)).
Proof.
  intros Hv Hd Hs Hms. rewrite (scan_policy_readable _ _ _ _ _ Hv Hd), Hs.
  cbn [from_option id isinstance_dict py_iter]. by apply scan_statements_typed.
Qed.

(** ** The lines of a run *)

Local Set Warnings "-clear-no-such-hyp".

Lemma elem_of_wildcard_section (o : out) (fs : list wildcard_finding) :
  o ∈ wildcard_section fs ↔
  (fs = [] ∧ o = ONoWildcard) ∨
  (fs ≠ [] ∧ (o = OWildcardHeader (length fs) ∨
              ∃ f, f ∈ fs ∧ o ∈ wildcard_finding_lines f)).
Proof.
  unfold wildcard_section. destruct fs as [|f fs].
  - rewrite list_elem_of_singleton. naive_solver.
  - rewrite elem_of_cons, list_elem_of_bind. naive_solver.
Qed.

Lemma elem_of_many_section (o : out) (fs : list many_finding) :
  o ∈ many_section fs ↔
  (fs = [] ∧ o = ONoMany) ∨
  (fs ≠ [] ∧ (o = OManyHeader (length fs) ACTION_COUNT_THRESHOLD ∨
              ∃ f, f ∈ fs ∧ o ∈ many_finding_lines f)).
Proof.
  unfold many_section. destruct fs as [|f fs].
  - rewrite list_elem_of_singleton. naive_solver.
  - rewrite elem_of_cons, list_elem_of_bind. naive_solver.
Qed.

Lemma elem_of_issues_section (o : out) (issues : list string) :
  o ∈ issues_section issues ↔
  issues ≠ [] ∧ (o = OIssuesHeader ∨ ∃ i, i ∈ issues ∧ o = OIssue i).
Proof.
  unfold issues_section. destruct issues as [|i issues].
  - rewrite elem_of_nil. naive_solver.
  - rewrite elem_of_cons, list_elem_of_fmap.
    split.
    + intros [->|(j & -> & Hj)]; (split; [done|]); [by left | right].
      exists j. split; [|done]. by apply sorted_issues_spec.
    + intros [_ [->|(j & Hj & ->)]]; [by left | right].
      exists j. split; [done|]. by apply sorted_issues_spec.
Qed.

Lemma elem_of_report_lines (o : out) (st : scan_state) :
  o ∈ report_lines st ↔
  o ∈ wildcard_section (findings_wildcard st) ∨
  o ∈ many_section (findings_many_actions st) ∨
  o ∈ issues_section (permission_issues st) ∨
  o = OComplete.
Proof.
  unfold report_lines. by rewrite !elem_of_app, list_elem_of_singleton.
Qed.

(** The outcome and the lines of a run, from the scan it makes. *)
Lemma run_cases (iam : iam_client) :
  ∃ st,
    stdout st = [OScanning] ∧
    (scan_pages iam (list_policies iam) initial).1
      = (scan_pages iam (list_policies iam) (print OScanning initial).2).1 ∧
    scan_pages iam (list_policies iam) (print OScanning initial).2
      = ((scan_pages iam (list_policies iam) initial).1, st) ∧
    match (scan_pages iam (list_policies iam) initial).1 with
    | Ok _ => main iam initial = (Ok (), with_stdout st (OScanning :: report_lines st))
    | Raise (ClientError _ message) =>
        main iam initial = (Ok (), with_stdout st [OScanning; OListError message])
    | Raise e => main iam initial = (Raise e, st)
    end.
Proof.
  destruct (main_cases iam) as [Hout Hmain]. cbv zeta in *.
  pose proof (scan_pages_outcome iam (list_policies iam) initial
                (print OScanning initial).2) as Hr.
  destruct (scan_pages iam (list_policies iam) (print OScanning initial).2)
    as [r st] eqn:Hscan.
  simpl in Hout, Hmain, Hr. exists st. rewrite Hr.
  split; [done|]. split; [done|]. split; [done|].
  by destruct r as [[]|[]].
Qed.

(** X13. An exception that [main] does not catch (a [TypeError],
    [AttributeError] or [KeyError] raised on a malformed document) ends the
    run at once: the run raises it and has printed nothing but the opening
    line, whatever findings and permission issues were collected before. *)
Theorem uncaught_exception_aborts (iam : iam_client) (e : exn) :
  (scan_pages iam (list_policies iam) initial).1 = Raise e →
  is_client_error e = false →
  run iam = (Raise e, [OScanning]).
Proof.
  intros Hscan He. destruct (run_cases iam) as (st & Hout & _ & _ & Hmain).
  rewrite Hscan in Hmain. unfold run.
  destruct e; try done; by rewrite Hmain, Hout.
Qed.

Lemma scan_pages_client_error (iam : iam_client) (pages : page_stream)
    (st : scan_state) (code message : string) :
  (scan_pages iam pages st).1 = Raise (ClientError code message) →
  ∃ before, pages = pages_then before (ListingFails code message).
Proof.
  revert st. induction pages as [|policies next IH|code' message']; intros st.
  - done.
  - cbn [scan_pages]. rewrite run_bind.
    pose proof (contains_for_each _ policies (contains_scan_policy iam) st) as Hp.
    destruct (for_each (scan_policy iam) policies st) as [[[]|e] st']; simpl in *.
    + intros [before ->]%IH. by exists (policies :: before).
    + intros [= ->]. by specialize (Hp _ eq_refl).
  - simpl. intros [= -> ->]. by exists [].
Qed.

(** X14. The line that reports a listing error is printed only when a
    request of the listing itself failed, with the message of that failure:
    a client error of [get_policy] or [get_policy_version] is never reported
    as a listing error. *)
Theorem listing_error_only_from_listing (iam : iam_client) (message : string) :
  OListError message ∈ (run iam).2 →
  ∃ before code,
    list_policies iam = pages_then before (ListingFails code message).
Proof.
  destruct (run_cases iam) as (st & Hout & _ & Hscan & Hmain). unfold run.
  destruct (scan_pages iam (list_policies iam) initial).1 as [[]|e] eqn:Hr.
  - rewrite Hmain. simpl. rewrite elem_of_cons, elem_of_report_lines.
    rewrite elem_of_wildcard_section, elem_of_many_section, elem_of_issues_section.
    unfold wildcard_finding_lines, many_finding_lines.
    intros [?|[H|[H|[H|?]]]]; try done.
    + destruct H as [[_ ?]|[_ [?|(f & _ & H)]]]; try done.
      rewrite !elem_of_cons, elem_of_nil in H. naive_solver.
    + destruct H as [[_ ?]|[_ [?|(f & _ & H)]]]; try done.
      rewrite !elem_of_cons, elem_of_nil in H. naive_solver.
    + destruct H as [_ [?|(i & _ & ?)]]; done.
  - assert (∀ c m, e = ClientError c m →
      ∃ before, list_policies iam = pages_then before (ListingFails c m)) as Hstream.
    { intros c m ->. apply (scan_pages_client_error iam _ initial). by rewrite Hr. }
    destruct e as [| | |c m]; rewrite Hmain; simpl; rewrite ?Hout;
      rewrite ?elem_of_cons, ?elem_of_nil; naive_solver.
Qed.

(** X15. The closing line is printed exactly when the scan went through the
    whole listing: not after a listing error, and not when an exception
    ended the run. *)
Theorem completion_line_iff_scan_completes (iam : iam_client) :
  OComplete ∈ (run iam).2 ↔ (scan_pages iam (list_policies iam) initial).1 = Ok ().
Proof.
  destruct (run_cases iam) as (st & Hout & _ & _ & Hmain). unfold run.
  destruct (scan_pages iam (list_policies iam) initial).1 as [[]|e].
  - rewrite Hmain. simpl. split; [done|]. intros _.
    right. apply elem_of_report_lines. by do 3 right.
  - destruct e; rewrite Hmain; simpl; rewrite ?Hout;
      rewrite ?elem_of_cons, ?elem_of_nil; naive_solver.
Qed.

(** X16. In the report of a completed scan each confirmation line stands
    for an empty list: the line for no wildcard finding is printed exactly
    when no wildcard finding was recorded, the line for no many-actions
    finding exactly when no many-actions finding was recorded, and the
    heading of the permission issues exactly when an issue was recorded. *)
Theorem confirmation_lines_iff_nothing_found (iam : iam_client) :
  (scan_pages iam (list_policies iam) initial).1 = Ok () →
  (ONoWildcard ∈ (run iam).2 ↔ findings_wildcard (main iam initial).2 = []) ∧
  (ONoMany ∈ (run iam).2 ↔ findings_many_actions (main iam initial).2 = []) ∧
  (OIssuesHeader ∈ (run iam).2 ↔ permission_issues (main iam initial).2 ≠ []).
Proof.
  intros Hscan. destruct (run_cases iam) as (st & Hout & _ & _ & Hmain).
  rewrite Hscan in Hmain. unfold run. rewrite Hmain. simpl.
  rewrite !elem_of_cons, !elem_of_report_lines.
  rewrite !elem_of_wildcard_section, !elem_of_many_section, !elem_of_issues_section.
  unfold wildcard_finding_lines, many_finding_lines.
  setoid_rewrite elem_of_cons. setoid_rewrite elem_of_cons.
  setoid_rewrite elem_of_cons. setoid_rewrite elem_of_nil.
  split; [|split]; naive_solver.
Qed.

(** X17. Every statement that a run prints was accepted by a classifier:
    by the wildcard classifier, or by the many-actions classifier after the
    wildcard classifier returned false. *)
Theorem printed_statements_were_accepted (iam : iam_client) (stmt : pyval) :
  OStatement stmt ∈ (run iam).2 →
  is_action_wildcard stmt = Ok true ∨
  (is_action_wildcard stmt = Ok false ∧ is_many_actions stmt = Ok true).
Proof.
  destruct (run_cases iam) as (st & Hout & _ & _ & Hmain).
  destruct (classified_main iam) as [Hw Hm].
  rewrite Forall_forall in Hw. rewrite Forall_forall in Hm. unfold run.
  destruct (scan_pages iam (list_policies iam) initial).1 as [[]|e].
  - rewrite Hmain in Hw, Hm |- *. simpl in Hw, Hm |- *.
    rewrite elem_of_cons, elem_of_report_lines.
    rewrite elem_of_wildcard_section, elem_of_many_section, elem_of_issues_section.
    unfold wildcard_finding_lines, many_finding_lines.
    intros [?|[H|[H|[H|?]]]]; try done.
    + destruct H as [[_ ?]|[_ [?|(f & Hf & H)]]]; try done.
      rewrite !elem_of_cons, elem_of_nil in H.
      destruct H as [?|[?|[[= ->]|[]]]]; try done. left. by apply Hw.
    + destruct H as [[_ ?]|[_ [?|(f & Hf & H)]]]; try done.
      rewrite !elem_of_cons, elem_of_nil in H.
      destruct H as [?|[?|[[= ->]|[]]]]; try done. right.
      by destruct (Hm f Hf) as (? & ? & _).
    + destruct H as [_ [?|(i & _ & ?)]]; done.
  - destruct e; rewrite Hmain; simpl; rewrite ?Hout;
      rewrite ?elem_of_cons, ?elem_of_nil; naive_solver.
Qed.

Lemma scan_empty_pages (iam : iam_client) (n : nat) (st : scan_state) :
  scan_pages iam (pages_then (replicate n []) NoMorePages) st = (Ok (), st).
Proof. induction n as [|n IH]; [done|]. cbn [replicate pages_then scan_pages]. apply IH. Qed.

(** X18. An account without customer-managed policies, over any number of
    empty pages, gives the opening line, the two confirmation lines and the
    closing line, and nothing about permission issues. *)
Theorem empty_account_report (iam : iam_client) (n : nat) :
  list_policies iam = pages_then (replicate n []) NoMorePages →
  run iam = (Ok (), [OScanning; ONoWildcard; ONoMany; OComplete]).
Proof.
  intros Hlist. rewrite run_unfold. unfold scan_then.
  by rewrite Hlist, scan_empty_pages.
Qed.

(** ** What the scan keeps *)

Lemma prefix_scan_statement {A} (field : scan_state → list A) (l : list A)
    (name arn : string) (stmt : pyval) :
  (∀ f st, l `prefix_of` field st → l `prefix_of` field (append_wildcard f st).2) →
  (∀ f st, l `prefix_of` field st → l `prefix_of` field (append_many f st).2) →
  preserves (λ st, l `prefix_of` field st) (scan_statement name arn stmt).
Proof.
  intros Hw Hm. apply preserves_scan_statement.
  - intros f st Hst. by apply Hw.
  - intros f st Hst. by apply Hm.
Qed.

(** X19. The scan only appends: whatever happens later in the scan, also an
    exception, the findings and the permission issues recorded so far stay
    recorded, in the same order, and the scan itself prints nothing. *)
Theorem scan_only_appends (iam : iam_client) (pages : page_stream) (st : scan_state) :
  findings_wildcard st `prefix_of` findings_wildcard (scan_pages iam pages st).2 ∧
  findings_many_actions st `prefix_of` findings_many_actions (scan_pages iam pages st).2 ∧
  permission_issues st `prefix_of` permission_issues (scan_pages iam pages st).2 ∧
  stdout (scan_pages iam pages st).2 = stdout st.
Proof.
  split; [|split; [|split]]; [| | |apply scan_pages_stdout].
  - apply (preserves_scan_pages (λ st', findings_wildcard st `prefix_of` findings_wildcard st'));
      [by intros i st' | | done].
    intros name arn stmt. apply prefix_scan_statement.
    + intros f st' Hp. simpl. by apply prefix_app_r.
    + by intros f st' Hp.
  - apply (preserves_scan_pages
      (λ st', findings_many_actions st `prefix_of` findings_many_actions st'));
      [by intros i st' | | done].
    intros name arn stmt. apply prefix_scan_statement.
    + by intros f st' Hp.
    + intros f st' Hp. simpl. by apply prefix_app_r.
  - apply (preserves_scan_pages
      (λ st', permission_issues st `prefix_of` permission_issues st'));
      [| | done].
    + intros i st' Hp. simpl. by apply prefix_app_r.
    + intros name arn stmt. by apply prefix_scan_statement; intros f st' Hp.
Qed.

Lemma statements_keep_issues (name arn : string) (stmts : list pyval)
    (st : scan_state) :
  permission_issues (for_each (scan_statement name arn) stmts st).2
  = permission_issues st.
Proof.
  apply (preserves_for_each (λ st', permission_issues st' = permission_issues st));
    [|done].
  intros stmt. by apply preserves_scan_statement; intros f st'.
Qed.

(** X20. A permission issue is recorded only for a policy that cannot be
    read: when [get_policy] or [get_policy_version] fails with a client
    error the scan of the policy is the recording of that one issue, and
    otherwise it leaves the permission issues as they were, whatever the
    document holds. *)
Theorem issue_only_on_fetch_failure (iam : iam_client) (p : policy_entry)
    (st : scan_state) :
  match fetch_failure iam (Arn p) with
  | Some (op, code) =>
      scan_policy iam p st = append_issue (issue_line op (PolicyName p) code) st
  | None =>
      permission_issues (scan_policy iam p st).2 = permission_issues st
  end.
Proof.
  destruct (fetch_failure iam (Arn p)) as [[op code]|] eqn:Hf.
  { by apply scan_policy_failure. }
  unfold fetch_failure in Hf. unfold scan_policy. cbv zeta.
  unfold try_except at 1. rewrite run_bind. unfold lift at 1.
  destruct (get_policy iam (Arn p)) as [version_id|e]; [|by destruct e].
  unfold try_except at 1. rewrite run_bind. unfold lift at 1.
  destruct (get_policy_version iam (Arn p) version_id) as [document|e];
    [|by destruct e].
  rewrite run_bind. unfold lift at 1.
  destruct (py_get document "Statement" (PList [])) as [statements|e] eqn:Hs.
  - rewrite run_bind. unfold lift at 1.
    destruct (py_iter _) as [stmts|e] eqn:Hi.
    + pose proof (contains_for_each _ stmts
        (contains_scan_statement (PolicyName p) (Arn p)) st) as Hno.
      pose proof (statements_keep_issues (PolicyName p) (Arn p) stmts st) as Hkeep.
      destruct (for_each _ stmts st) as [[[]|e] st']; [done|].
      specialize (Hno e eq_refl). by destruct e.
    + pose proof (rnce_py_iter _ _ Hi). by destruct e.
  - pose proof (rnce_py_get _ _ _ _ Hs). by destruct e.
Qed.

(** ** The further properties at sample inputs *)

Lemma non_allow_never_reported_witness :
  is_action_wildcard (PDict deny_all) = Ok false.
Proof. apply (non_allow_never_reported deny_all). vm_compute. discriminate. Defined.

Lemma is_many_actions_reads_effect_and_action_witness :
  is_many_actions_with 20
    (PDict (<["Condition" := PDict {["Bool" := PNone]}]> (with_actions twenty_actions)))
  = is_many_actions_with 20 (PDict (with_actions twenty_actions)).
Proof.
  apply (is_many_actions_reads_effect_and_action 20); reflexivity.
Defined.

Lemma is_many_actions_threshold_mono_witness :
  is_many_actions_with 10 (PDict (with_actions twenty_actions)) = Ok true.
Proof.
  apply (is_many_actions_threshold_mono 20 10).
  - vm_compute. repeat constructor.
  - vm_compute. reflexivity.
Defined.

Lemma scalar_action_raises_witness :
  is_action_wildcard (PDict null_action) = Raise TypeError.
Proof. apply (scalar_action_raises null_action PNone); reflexivity. Defined.

Lemma is_many_actions_order_and_repetition_witness :
  is_many_actions_with 20
    (PDict (with_actions (reverse twenty_actions ++ twenty_actions)))
  = is_many_actions_with 20 (PDict (with_actions twenty_actions)).
Proof.
  apply (is_many_actions_order_and_repetition 20 _ _
           (reverse twenty_actions ++ twenty_actions) twenty_actions).
  - reflexivity.
  - vm_compute. reflexivity.
  - vm_compute. reflexivity.
  - intros a. rewrite elem_of_app, elem_of_reverse. tauto.
Defined.

Lemma falsy_condition_is_no_condition_witness :
  is_action_wildcard (PDict (<["Resource" := PStr "*"]> allow_all_odd)) = Ok true.
Proof.
  apply (falsy_condition_is_no_condition _ ["*"] ["*"] (PList [])).
  - reflexivity.
  - reflexivity.
  - by left.
  - reflexivity.
  - left. by left.
  - reflexivity.
  - do 4 right. by left.
Defined.

Lemma star_resource_short_circuits_witness :
  is_action_wildcard (PDict allow_all_odd) = Ok true.
Proof.
  apply (star_resource_short_circuits allow_all_odd ["*"] [PInt 7; PStr "*"]).
  - reflexivity.
  - reflexivity.
  - by left.
  - reflexivity.
  - right. by left.
Defined.

Lemma sorted_issues_same_elements_witness :
  sorted_issues ["b"; "a"; "b"] = sorted_issues ["a"; "b"].
Proof.
  apply (sorted_issues_same_elements ["b"; "a"; "b"] ["a"; "b"]).
  intros i. rewrite !elem_of_cons, elem_of_nil. tauto.
Defined.

Lemma readable_policy_statement_shapes_witness :
  scan_policy sample_account broad_policy initial =
  scan_statement "Broad" "arn:aws:iam::123456789012:policy/Broad"
    (PDict (with_actions twenty_actions)) initial.
Proof.
  apply (readable_policy_statement_shapes sample_account broad_policy "v1"
           (list_to_map [("Version", PStr "2012-10-17");
                         ("Statement", PDict (with_actions twenty_actions))]));
    reflexivity.
Defined.

Lemma typed_document_findings_witness :
  scan_policy sample_account admin_policy initial =
  (Ok (), add_findings initial
            (wildcard_findings_of "Admin" "arn:aws:iam::123456789012:policy/Admin"
               [allow_all])
            (many_findings_of "Admin" "arn:aws:iam::123456789012:policy/Admin"
               [allow_all])).
Proof.
  apply (typed_document_findings sample_account admin_policy "v1"
           (list_to_map [("Version", PStr "2012-10-17");
                         ("Statement", PList [PDict allow_all])]) [allow_all]).
  - reflexivity.
  - reflexivity.
  - reflexivity.
  - constructor; [|constructor]. split; eexists; reflexivity.
Defined.

Lemma uncaught_exception_aborts_witness :
  run malformed_account = (Raise AttributeError, [OScanning]).
Proof.
  apply (uncaught_exception_aborts malformed_account AttributeError).
  - vm_compute. reflexivity.
  - reflexivity.
Defined.

Lemma listing_error_only_from_listing_witness :
  ∃ before code,
    list_policies refused_account
    = pages_then before
        (ListingFails code "not authorized to perform iam:ListPolicies").
Proof.
  apply (listing_error_only_from_listing refused_account).
  vm_compute. right. left.
Defined.

Lemma confirmation_lines_iff_nothing_found_witness :
  ONoWildcard ∈ (run empty_account).2
  ↔ findings_wildcard (main empty_account initial).2 = [].
Proof.
  apply (confirmation_lines_iff_nothing_found empty_account).
  vm_compute. reflexivity.
Defined.

Lemma printed_statements_were_accepted_witness :
  is_action_wildcard (PDict allow_all) = Ok true ∨
  (is_action_wildcard (PDict allow_all) = Ok false ∧
   is_many_actions (PDict allow_all) = Ok true).
Proof.
  apply (printed_statements_were_accepted sample_account (PDict allow_all)).
  vm_compute. do 4 right. left.
Defined.

Lemma empty_account_report_witness :
  run empty_account = (Ok (), [OScanning; ONoWildcard; ONoMany; OComplete]).
Proof. apply (empty_account_report empty_account 1). reflexivity. Defined.

(** Without the literal ["*"], the same number among the resources makes
    the classifier raise. *)
Example number_among_resources_raises :
  is_action_wildcard
    (PDict (<["Resource" := PList [PInt 7; PStr "arn:aws:iam::123456789012:*"]]>
              allow_all_odd))
  = Raise TypeError.
Proof. by vm_compute. Qed.

(** A statement that the wildcard classifier accepts and on which the
    many-actions classifier would raise: the driver records the wildcard
    finding and never meets the exception. *)
Example wildcard_finding_without_many_actions :
  is_many_actions (PDict allow_all_unhashable) = Raise TypeError ∧
  scan_statement "Admin" "arn:aws:iam::123456789012:policy/Admin"
    (PDict allow_all_unhashable) initial =
  append_wildcard
    {| wf_PolicyName := "Admin";
       wf_PolicyArn := "arn:aws:iam::123456789012:policy/Admin";
       wf_Statement := PDict allow_all_unhashable |} initial.
Proof. by vm_compute. Qed.
